(** * Reflex Master PRO v2.0: a shallow embedding of [ReflexMasterPro.ino]

    The sketch is a single-threaded polling state machine.  Its global
    variables become the record [game]; the hardware it talks to (clock,
    joystick, buttons, pseudo-random generator, LCD, LEDs, speaker) becomes
    the record [world]: three input tapes that the reads consume, and a log
    of everything the sketch does to the outside, most recent event first.
    Every function of the sketch is a computation in the monad [M], which
    threads both records and fails only when an input tape runs out. *)

From Stdlib Require Import ZArith List String Bool Lia.
Import ListNotations.
Open Scope string_scope.
Open Scope list_scope.
Open Scope Z_scope.

(** ** C++ integer types

    The sketch is written for the classic AVR boards (analog pins A0-A5,
    digital pins 2-12): [int] has 16 bits, [long] and [unsigned long] have
    32.  Values are kept in [Z]; every assignment goes through the wrap of
    the type of the variable assigned. *)

Definition wrap_ulong (z : Z) : Z := z mod 2 ^ 32.
Definition wrap_long (z : Z) : Z := (z + 2 ^ 31) mod 2 ^ 32 - 2 ^ 31.
Definition wrap_int (z : Z) : Z := (z + 2 ^ 15) mod 2 ^ 16 - 2 ^ 15.

Definition LONG_MIN : Z := - 2 ^ 31.
Definition LONG_MAX : Z := 2 ^ 31 - 1.
Definition ULONG_MAX : Z := 2 ^ 32 - 1.

(** ** Game variables *)

Record game : Type := mkGame {
  totalRounds : Z;      (* int: rounds per game *)
  gameState : Z;        (* int: 0 menu, 1 en garde, 2 action, 3 result,
                           4 game over, 5 high score *)
  menuOption : Z;       (* int: 0 play, 1 config, 2 record *)
  lastMenuOption : Z;   (* int *)
  currentRound : Z;     (* int *)
  startTime : Z;        (* unsigned long: when the LED lit up *)
  reactionTime : Z;     (* unsigned long *)
  roundScore : Z;       (* int *)
  totalGameScore : Z;   (* long *)
  highScore : Z;        (* long *)
  lastNavTime : Z;      (* unsigned long *)
  currentTarget : Z     (* int: 0 left, 1 center, 2 right *)
}.

(** The initialisers of the globals; [startTime] and [reactionTime] have
    none and are zero as all statics are. *)
Definition power_on : game :=
  {| totalRounds := 10; gameState := 0; menuOption := 0;
     lastMenuOption := -1; currentRound := 1; startTime := 0;
     reactionTime := 0; roundScore := 0; totalGameScore := 0;
     highScore := 0; lastNavTime := 0; currentTarget := 0 |}.

Definition numTargets : Z := 3.

(** The indices [0 .. numTargets - 1] a [for] loop over the targets visits. *)
Definition targets : list Z := map Z.of_nat (seq 0 (Z.to_nat numTargets)).

Definition with_totalRounds (v : Z) (g : game) : game :=
  mkGame v (gameState g) (menuOption g) (lastMenuOption g) (currentRound g)
    (startTime g) (reactionTime g) (roundScore g) (totalGameScore g)
    (highScore g) (lastNavTime g) (currentTarget g).
Definition with_gameState (v : Z) (g : game) : game :=
  mkGame (totalRounds g) v (menuOption g) (lastMenuOption g) (currentRound g)
    (startTime g) (reactionTime g) (roundScore g) (totalGameScore g)
    (highScore g) (lastNavTime g) (currentTarget g).
Definition with_menuOption (v : Z) (g : game) : game :=
  mkGame (totalRounds g) (gameState g) v (lastMenuOption g) (currentRound g)
    (startTime g) (reactionTime g) (roundScore g) (totalGameScore g)
    (highScore g) (lastNavTime g) (currentTarget g).
Definition with_lastMenuOption (v : Z) (g : game) : game :=
  mkGame (totalRounds g) (gameState g) (menuOption g) v (currentRound g)
    (startTime g) (reactionTime g) (roundScore g) (totalGameScore g)
    (highScore g) (lastNavTime g) (currentTarget g).
Definition with_currentRound (v : Z) (g : game) : game :=
  mkGame (totalRounds g) (gameState g) (menuOption g) (lastMenuOption g) v
    (startTime g) (reactionTime g) (roundScore g) (totalGameScore g)
    (highScore g) (lastNavTime g) (currentTarget g).
Definition with_startTime (v : Z) (g : game) : game :=
  mkGame (totalRounds g) (gameState g) (menuOption g) (lastMenuOption g)
    (currentRound g) v (reactionTime g) (roundScore g) (totalGameScore g)
    (highScore g) (lastNavTime g) (currentTarget g).
Definition with_reactionTime (v : Z) (g : game) : game :=
  mkGame (totalRounds g) (gameState g) (menuOption g) (lastMenuOption g)
    (currentRound g) (startTime g) v (roundScore g) (totalGameScore g)
    (highScore g) (lastNavTime g) (currentTarget g).
Definition with_roundScore (v : Z) (g : game) : game :=
  mkGame (totalRounds g) (gameState g) (menuOption g) (lastMenuOption g)
    (currentRound g) (startTime g) (reactionTime g) v (totalGameScore g)
    (highScore g) (lastNavTime g) (currentTarget g).
Definition with_totalGameScore (v : Z) (g : game) : game :=
  mkGame (totalRounds g) (gameState g) (menuOption g) (lastMenuOption g)
    (currentRound g) (startTime g) (reactionTime g) (roundScore g) v
    (highScore g) (lastNavTime g) (currentTarget g).
Definition with_highScore (v : Z) (g : game) : game :=
  mkGame (totalRounds g) (gameState g) (menuOption g) (lastMenuOption g)
    (currentRound g) (startTime g) (reactionTime g) (roundScore g)
    (totalGameScore g) v (lastNavTime g) (currentTarget g).
Definition with_lastNavTime (v : Z) (g : game) : game :=
  mkGame (totalRounds g) (gameState g) (menuOption g) (lastMenuOption g)
    (currentRound g) (startTime g) (reactionTime g) (roundScore g)
    (totalGameScore g) (highScore g) v (currentTarget g).
Definition with_currentTarget (v : Z) (g : game) : game :=
  mkGame (totalRounds g) (gameState g) (menuOption g) (lastMenuOption g)
    (currentRound g) (startTime g) (reactionTime g) (roundScore g)
    (totalGameScore g) (highScore g) (lastNavTime g) v.

(** ** The outside world *)

(** What one poll of the inputs sees.  A button or the joystick switch is
    [true] when pressed, that is when [digitalRead] returns [LOW] (the pins
    are [INPUT_PULLUP]). *)
Record inputs : Type := mkInputs {
  joyX : Z;             (* analogRead(joyXPin) *)
  joyY : Z;             (* analogRead(joyYPin) *)
  joySwitch : bool;     (* digitalRead(joySwitch) == LOW *)
  btnLeft : bool;       (* digitalRead(btnPins[0]) == LOW *)
  btnCenter : bool;     (* digitalRead(btnPins[1]) == LOW *)
  btnRight : bool       (* digitalRead(btnPins[2]) == LOW *)
}.

Definition btn (smp : inputs) (i : Z) : bool :=
  if i =? 0 then btnLeft smp
  else if i =? 1 then btnCenter smp
  else if i =? 2 then btnRight smp
  else false.

Definition anyTarget (smp : inputs) : bool :=
  btnLeft smp || btnCenter smp || btnRight smp.

(** What the sketch does, in the order it does it.  [EvState] records the
    assignments to [gameState], so that their place among the outputs can be
    stated. *)
Inductive event : Type :=
| EvReadJoyY
| EvReadJoyX
| EvReadSwitch
| EvReadBtn (i : Z)
| EvMillis
| EvRandom
| EvLcdClear
| EvLcdSetCursor (col row : Z)
| EvLcdPrint (text : string)
| EvLcdPrintNum (n : Z)
| EvLcdWrite (glyph : Z)
| EvLed (i : Z) (on : bool)
| EvTone (frequency duration : Z)
| EvDelay (ms : Z)
| EvState (s : Z).

Record world : Type := mkWorld {
  clock : list Z;       (* what the next calls of millis() return *)
  pins : list inputs;   (* what the next polls of the inputs see *)
  rng : list Z;         (* what the next calls of random() return *)
  log : list event      (* the events so far, most recent first *)
}.

Definition with_clock (c : list Z) (w : world) : world :=
  mkWorld c (pins w) (rng w) (log w).
Definition with_pins (p : list inputs) (w : world) : world :=
  mkWorld (clock w) p (rng w) (log w).
Definition with_rng (r : list Z) (w : world) : world :=
  mkWorld (clock w) (pins w) r (log w).
Definition with_log (l : list event) (w : world) : world :=
  mkWorld (clock w) (pins w) (rng w) l.

(** ** The monad of the sketch *)

Record st : Type := mkSt { vars : game; env : world }.

Definition M (A : Type) : Type := st -> option (A * st).

Definition ret {A} (a : A) : M A := fun s => Some (a, s).

Definition bind {A B} (m : M A) (k : A -> M B) : M B :=
  fun s => match m s with
           | Some (a, s') => k a s'
           | None => None
           end.

Notation "x <- c1 ;; c2" := (bind c1 (fun x => c2))
  (at level 61, c1 at next level, right associativity).
Notation "c1 ;; c2" := (bind c1 (fun _ => c2))
  (at level 61, right associativity).

Definition when (c : bool) (m : M unit) : M unit :=
  if c then m else ret tt.

(** Reading and assigning a global. *)
Definition get {A} (field : game -> A) : M A :=
  fun s => Some (field (vars s), s).

Definition set (upd : Z -> game -> game) (v : Z) : M unit :=
  fun s => Some (tt, mkSt (upd v (vars s)) (env s)).

Definition emit (e : event) : M unit :=
  fun s => Some (tt, mkSt (vars s) (with_log (e :: log (env s)) (env s))).

(** [gameState = v]. *)
Definition set_gameState (v : Z) : M unit :=
  set with_gameState v ;; emit (EvState v).

(** *** Arduino primitives *)

Definition millis : M Z :=
  fun s => match clock (env s) with
           | [] => None
           | t :: c =>
               Some (wrap_ulong t,
                     mkSt (vars s)
                       (with_log (EvMillis :: log (env s))
                          (with_clock c (env s))))
           end.

(** One poll of the inputs: the reads that follow look at this sample. *)
Definition poll : M inputs :=
  fun s => match pins (env s) with
           | [] => None
           | smp :: p => Some (smp, mkSt (vars s) (with_pins p (env s)))
           end.

Definition analogRead_joyY (smp : inputs) : M Z :=
  emit EvReadJoyY ;; ret (joyY smp).
Definition analogRead_joyX (smp : inputs) : M Z :=
  emit EvReadJoyX ;; ret (joyX smp).
Definition pressed_joySwitch (smp : inputs) : M bool :=
  emit EvReadSwitch ;; ret (joySwitch smp).
Definition pressed_btn (smp : inputs) (i : Z) : M bool :=
  emit (EvReadBtn i) ;; ret (btn smp i).

(** [random(howsmall, howbig)] of the Arduino core, on the value [raw] that
    the generator's [random()] returns (between 0 and [0x7FFFFFFF]):
    [howsmall] when the range is empty, else [raw % (howbig - howsmall) +
    howsmall].  The upper bound is excluded, as the sketch's own
    [random(0, 3)] "Randomly choose: 0, 1, or 2" relies on. *)
Definition random_range (howsmall howbig raw : Z) : Z :=
  if howsmall >=? howbig then howsmall
  else raw mod (howbig - howsmall) + howsmall.

Definition random (howsmall howbig : Z) : M Z :=
  fun s => match rng (env s) with
           | [] => None
           | raw :: r =>
               Some (random_range howsmall howbig raw,
                     mkSt (vars s)
                       (with_log (EvRandom :: log (env s))
                          (with_rng r (env s))))
           end.

Definition delay (ms : Z) : M unit := emit (EvDelay ms).
Definition tone (frequency duration : Z) : M unit :=
  emit (EvTone frequency duration).
Definition digitalWrite_led (i : Z) (on : bool) : M unit := emit (EvLed i on).
Definition lcd_clear : M unit := emit EvLcdClear.
Definition lcd_setCursor (col row : Z) : M unit :=
  emit (EvLcdSetCursor col row).
Definition lcd_print (text : string) : M unit := emit (EvLcdPrint text).
Definition lcd_printNum (n : Z) : M unit := emit (EvLcdPrintNum n).
Definition lcd_write (glyph : Z) : M unit := emit (EvLcdWrite glyph).

(** *** Loops *)

(** [for (i ...) body(i);] *)
Fixpoint forM (l : list Z) (body : Z -> M unit) : M unit :=
  match l with
  | [] => ret tt
  | i :: l' => body i ;; forM l' body
  end.

(** A [for] loop whose body may [return] from the enclosing function: the
    body answers [true] when it did. *)
Fixpoint forReturn (l : list Z) (body : Z -> M bool) : M bool :=
  match l with
  | [] => ret false
  | i :: l' => r <- body i ;; if r then ret true else forReturn l' body
  end.

(** A [for] loop that updates a local variable. *)
Fixpoint forFold {A} (l : list Z) (body : A -> Z -> M A) (a : A) : M A :=
  match l with
  | [] => ret a
  | i :: l' => a' <- body a i ;; forFold l' body a'
  end.

Definition upto (n : nat) : list Z := map Z.of_nat (seq 0 n).

(** A [while] loop: the body answers [Some r] when the loop is left (by its
    condition or by a [return]) and [None] to go round again.  Both [while]
    loops of the sketch read a tape on every round, so neither goes round
    more often than that tape is long: [fuel] is the length of the tape. *)
Fixpoint loopM {R} (fuel : nat) (body : M (option R)) : M R :=
  match fuel with
  | O => fun _ => None
  | S fuel' =>
      r <- body ;;
      match r with
      | Some x => ret x
      | None => loopM fuel' body
      end
  end.

Definition whilePolling {R} (body : M (option R)) : M R :=
  fun s => loopM (List.length (pins (env s))) body s.

Definition whileTiming {R} (body : M (option R)) : M R :=
  fun s => loopM (List.length (clock (env s))) body s.

(** ** The sketch

    [setup()] configures the pins, seeds the generator, loads the icons and
    draws the intro and the menu; it assigns no game variable, so the game
    starts from [power_on]. *)

Definition drawMenu : M unit :=
  lcd_clear ;;
  mo <- get menuOption ;;
  let startItem := if mo =? 2 then 1 else 0 in
  forM (upto 2) (fun i =>
    let itemIndex := startItem + i in
    lcd_setCursor 1 i ;;
    if itemIndex =? 0 then
      lcd_write 0 ;; lcd_print " INICIAR"
    else if itemIndex =? 1 then
      lcd_write 3 ;; lcd_print " RONDAS: <" ;;
      tr <- get totalRounds ;; lcd_printNum tr ;;
      lcd_print ">"
    else if itemIndex =? 2 then
      lcd_write 1 ;; lcd_print " RECORDE"
    else ret tt) ;;
  mo <- get menuOption ;;
  lcd_setCursor 0 (mo - startItem) ;;
  lcd_write 2.

(** The intro of [setup()]: the title, and the three LEDs blinked twice
    with a tone. *)
Definition introAnimation : M unit :=
  lcd_clear ;;
  lcd_setCursor 2 0 ;;
  lcd_print "REFLEX MASTER" ;;
  lcd_setCursor 4 1 ;;
  lcd_print "PRO v2.0" ;;
  forM (upto 2) (fun k =>
    forM (upto 3) (fun i => digitalWrite_led i true) ;;
    tone (wrap_int (400 + k * 200)) 100 ;;
    delay 100 ;;
    forM (upto 3) (fun i => digitalWrite_led i false) ;;
    delay 100).

Definition startNewGame : M unit :=
  set with_currentRound 1 ;;
  set with_totalGameScore 0 ;;
  set_gameState 1 ;;
  lcd_clear ;;
  lcd_setCursor 3 0 ;;
  lcd_print "PREPARAR" ;;
  lcd_setCursor 4 1 ;;
  lcd_print "COMBATE!" ;;
  delay 1000.

Definition showHighScore : M unit :=
  set_gameState 5 ;;
  lcd_clear ;;
  lcd_setCursor 0 0 ;;
  lcd_write 1 ;;
  lcd_print " HALL OF FAME " ;;
  lcd_write 1 ;;
  lcd_setCursor 4 1 ;;
  hs <- get highScore ;; lcd_printNum hs ;;
  lcd_print " pts".

Definition cancelGame : M unit :=
  set_gameState 0 ;;
  forM (upto 3) (fun i => digitalWrite_led i false) ;;
  lcd_clear ;;
  lcd_print "CANCELADO" ;;
  tone 100 400 ;;
  delay 1500 ;;
  set with_lastMenuOption (-1) ;;
  drawMenu.

Definition gameOver : M unit :=
  set_gameState 4 ;;
  lcd_clear ;;
  tgs <- get totalGameScore ;;
  hs <- get highScore ;;
  if tgs >? hs then
    set with_highScore tgs ;;
    lcd_setCursor 1 0 ;;
    lcd_write 1 ;;
    lcd_print " RECORDE! " ;;
    lcd_write 1 ;;
    lcd_setCursor 4 1 ;;
    hs <- get highScore ;; lcd_printNum hs ;;
    tone 523 150 ;;
    delay 150 ;;
    tone 659 150 ;;
    delay 150 ;;
    tone 784 150 ;;
    delay 150 ;;
    tone 1046 600
  else
    lcd_print "  FIM DO JOGO  " ;;
    lcd_setCursor 2 1 ;;
    lcd_print "Total: " ;;
    tgs <- get totalGameScore ;; lcd_printNum tgs ;;
    tone 300 600.

Definition processRoundResult (success : bool) : M unit :=
  lcd_clear ;;
  (if success then
     rt <- get reactionTime ;;
     (if rt >? 1000 then set with_roundScore 0
      else set with_roundScore (wrap_int (wrap_ulong (1000 - rt)))) ;;
     rs <- get roundScore ;;
     (if rs >? 800 then
        tone 1000 80 ;;
        delay 80 ;;
        tone 2000 150
      else
        tone 800 100) ;;
     lcd_setCursor 0 0 ;;
     lcd_print "TOP! " ;;
     rt <- get reactionTime ;; lcd_printNum rt ;;
     lcd_print "ms"
   else
     set with_roundScore (-200) ;;
     tone 100 300 ;;
     lcd_setCursor 0 0 ;;
     lcd_print "ERRADO!") ;;
  tgs <- get totalGameScore ;;
  rs <- get roundScore ;;
  set with_totalGameScore (wrap_long (tgs + rs)) ;;
  lcd_setCursor 0 1 ;;
  lcd_print "Score: " ;;
  tgs <- get totalGameScore ;; lcd_printNum tgs ;;
  set_gameState 3.

(** The body of the scan of [checkReflexes], for button [i]. *)
Definition checkButton (smp : inputs) (i : Z) : M unit :=
  b <- pressed_btn smp i ;;
  when b (
    now <- millis ;;
    t0 <- get startTime ;;
    set with_reactionTime (wrap_ulong (now - t0)) ;;
    ct <- get currentTarget ;;
    digitalWrite_led ct false ;;
    ct <- get currentTarget ;;
    if i =? ct then processRoundResult true
    else processRoundResult false).

Definition checkReflexes : M unit :=
  smp <- poll ;;
  forM targets (checkButton smp).

(** The body of the false-start scan of [runEnGarde]: [true] when it
    returned from the function. *)
Definition falseStart (smp : inputs) (i : Z) : M bool :=
  b <- pressed_btn smp i ;;
  if b then
    tone 100 400 ;;
    lcd_setCursor 0 1 ;;
    lcd_print "  FALTA! -500   " ;;
    tgs <- get totalGameScore ;;
    set with_totalGameScore (wrap_long (tgs - 500)) ;;
    delay 1500 ;;
    ret true
  else ret false.

(** One round of [while (!buttonsFree)]: [Some tt] when the loop is left. *)
Definition buttonsReleased : M (option unit) :=
  smp <- poll ;;
  buttonsFree <- forFold targets (fun free i =>
    b <- pressed_btn smp i ;;
    ret (if b then false else free)) true ;;
  delay 10 ;;
  ret (if buttonsFree then Some tt else None).

(** One round of [while (millis() - delayStart < randomDelay)], condition
    included: [Some false] when the delay is over, [Some true] when the
    round returned from [runEnGarde], [None] to go round again. *)
Definition delayPoll (randomDelay delayStart : Z) : M (option bool) :=
  now <- millis ;;
  if wrap_ulong (now - delayStart) <? wrap_ulong randomDelay then
    smp <- poll ;;
    fs <- forReturn targets (falseStart smp) ;;
    if fs then ret (Some true)
    else
      sw <- pressed_joySwitch smp ;;
      if sw then cancelGame ;; ret (Some true)
      else ret None
  else ret (Some false).

Definition runEnGarde : M unit :=
  lcd_clear ;;
  lcd_print "Rnd " ;;
  cr <- get currentRound ;; lcd_printNum cr ;;
  lcd_print "/" ;;
  tr <- get totalRounds ;; lcd_printNum tr ;;
  lcd_setCursor 9 0 ;;
  lcd_print "Pts:" ;;
  tgs <- get totalGameScore ;; lcd_printNum tgs ;;
  lcd_setCursor 0 1 ;;
  lcd_print "EN GARDE..." ;;
  forM targets (fun i => digitalWrite_led i false) ;;
  whilePolling buttonsReleased ;;
  delay 200 ;;
  r <- random 800 3000 ;;
  let randomDelay := wrap_int r in
  delayStart <- millis ;;
  returned <- whileTiming (delayPoll randomDelay delayStart) ;;
  if returned then ret tt
  else
    set_gameState 2 ;;
    t <- random 0 3 ;;
    set with_currentTarget (wrap_int t) ;;
    lcd_setCursor 0 1 ;;
    ct <- get currentTarget ;;
    when (ct =? 0) (lcd_print "ESQUERDA! <     ") ;;
    when (ct =? 1) (lcd_print " CENTRO!  ^     ") ;;
    when (ct =? 2) (lcd_print "DIREITA!  >     ") ;;
    digitalWrite_led ct true ;;
    tone 1500 150 ;;
    now <- millis ;;
    set with_startTime now.

Definition handleMenu : M unit :=
  smp <- poll ;;
  joyY <- analogRead_joyY smp ;;
  joyX <- analogRead_joyX smp ;;
  now <- millis ;;
  lastNav <- get lastNavTime ;;
  when (wrap_ulong (now - lastNav) >? 200) (
    mo <- get menuOption ;;
    when ((joyY <? 100) && (mo >? 0)) (
      set with_menuOption (wrap_int (mo - 1)) ;;
      tone 1000 20 ;;
      now <- millis ;; set with_lastNavTime now ;;
      drawMenu) ;;
    mo <- get menuOption ;;
    when ((joyY >? 900) && (mo <? 2)) (
      set with_menuOption (wrap_int (mo + 1)) ;;
      tone 1000 20 ;;
      now <- millis ;; set with_lastNavTime now ;;
      drawMenu) ;;
    mo <- get menuOption ;;
    when (mo =? 1) (
      when (joyX >? 900) (
        tr <- get totalRounds ;;
        set with_totalRounds (wrap_int (tr + 1)) ;;
        tr <- get totalRounds ;;
        when (tr >? 99) (set with_totalRounds 99) ;;
        tone 1200 20 ;;
        now <- millis ;; set with_lastNavTime now ;;
        drawMenu) ;;
      when (joyX <? 100) (
        tr <- get totalRounds ;;
        set with_totalRounds (wrap_int (tr - 1)) ;;
        tr <- get totalRounds ;;
        when (tr <? 1) (set with_totalRounds 1) ;;
        tone 800 20 ;;
        now <- millis ;; set with_lastNavTime now ;;
        drawMenu))) ;;
  sw <- pressed_joySwitch smp ;;
  when sw (
    tone 1800 50 ;;
    delay 100 ;;
    tone 2000 100 ;;
    mo <- get menuOption ;;
    (if mo =? 0 then startNewGame
     else if mo =? 1 then startNewGame
     else showHighScore) ;;
    delay 500).

Definition loop : M unit :=
  gs <- get gameState ;;
  if gs =? 0 then handleMenu
  else if gs =? 1 then runEnGarde
  else if gs =? 2 then checkReflexes
  else if gs =? 3 then
    delay 800 ;;
    forM targets (fun i => digitalWrite_led i false) ;;
    cr <- get currentRound ;;
    tr <- get totalRounds ;;
    if cr <? tr then
      set with_currentRound (wrap_int (cr + 1)) ;;
      set_gameState 1
    else gameOver
  else if (gs =? 4) || (gs =? 5) then
    smp <- poll ;;
    sw <- pressed_joySwitch smp ;;
    confirm <- (if sw then ret true else pressed_btn smp 1) ;;
    when confirm (
      set_gameState 0 ;;
      set with_menuOption 0 ;;
      set with_lastMenuOption (-1) ;;
      tone 600 100 ;;
      drawMenu ;;
      delay 500)
  else ret tt.

(** [n] passes of [loop()]. *)
Fixpoint run (n : nat) : M unit :=
  match n with
  | O => ret tt
  | S n' => loop ;; run n'
  end.

(** The states the sketch can be in after some passes of [loop()], whatever
    the inputs were. *)
Definition reachable (g : game) : Prop :=
  exists (n : nat) (w w' : world),
    run n (mkSt power_on w) = Some (tt, mkSt g w').

(** * Vocabulary of the statements *)

(** [wp m Q s]: if [m] returns from [s], it does so with a result and a
    state that satisfy [Q].  (That it returns is shown separately, on the
    runs the statements are about.) *)
Definition wp {A} (m : M A) (Q : A -> st -> Prop) (s : st) : Prop :=
  match m s with
  | Some (a, s') => Q a s'
  | None => True
  end.

(** [m] leaves the game variables alone. *)
Definition silent {A} (m : M A) : Prop :=
  forall s, wp m (fun _ s' => vars s' = vars s) s.

(** What holds of the game variables between any two passes of [loop()]:
    the round count stays within 1..99; the record does not fall below [h];
    and, with a round count within 1..99, the round counter is within
    1..totalRounds while a game is on (states 1 to 4).  The first and the
    third do not hold of every state a run could be started from, so each is
    assumed and shown only under its flag ([R], [C]); one pass over the
    sketch then serves all three. *)
Definition inv (R C : Prop) (h : Z) (g : game) : Prop :=
  (R -> 1 <= totalRounds g <= 99) /\
  h <= highScore g /\
  (C -> 1 <= totalRounds g <= 99 /\
        (1 <= gameState g <= 4 -> 1 <= currentRound g <= totalRounds g)).

(** The button reads of a scan that stops at button [i], most recent
    first. *)
Definition readsUpTo (i : Z) : list event :=
  map EvReadBtn (rev (upto (S (Z.to_nat i)))).

(** The first pressed button in scan order (left, center, right). *)
Definition firstPressed (smp : inputs) : Z :=
  if btnLeft smp then 0 else if btnCenter smp then 1 else 2.

(** The condition of the delay loop, at the clock reading [t], for a delay
    that started at the reading [t0] with the generator's value [raw]. *)
Definition waiting (raw t0 t : Z) : Prop :=
  wrap_ulong (wrap_ulong t - wrap_ulong t0)
  < wrap_ulong (wrap_int (random_range 800 3000 raw)).

(** A poll of the delay loop that sees nothing pressed. *)
Definition quiet (smp : inputs) : Prop :=
  anyTarget smp = false /\ joySwitch smp = false.

(** The text shown for the target [ct]. *)
Definition goText (ct : Z) : string :=
  if ct =? 0 then "ESQUERDA! <     "
  else if ct =? 1 then " CENTRO!  ^     "
  else "DIREITA!  >     ".

(** The screen and the LEDs of the preparation phase, most recent first. *)
Definition enGardeScreen (g : game) : list event :=
  [EvLed 2 false; EvLed 1 false; EvLed 0 false; EvLcdPrint "EN GARDE...";
   EvLcdSetCursor 0 1; EvLcdPrintNum (totalGameScore g); EvLcdPrint "Pts:";
   EvLcdSetCursor 9 0; EvLcdPrintNum (totalRounds g); EvLcdPrint "/";
   EvLcdPrintNum (currentRound g); EvLcdPrint "Rnd "; EvLcdClear].

(** What [gameOver] shows and plays for a record and otherwise, most
    recent first. *)
Definition recordEvents (score : Z) : list event :=
  [EvTone 1046 600; EvDelay 150; EvTone 784 150; EvDelay 150;
   EvTone 659 150; EvDelay 150; EvTone 523 150; EvLcdPrintNum score;
   EvLcdSetCursor 4 1; EvLcdWrite 1; EvLcdPrint " RECORDE! "; EvLcdWrite 1;
   EvLcdSetCursor 1 0].

(** The same, when the record stands. *)
Definition closingEvents (score : Z) : list event :=
  [EvTone 300 600; EvLcdPrintNum score; EvLcdPrint "Total: ";
   EvLcdSetCursor 2 1; EvLcdPrint "  FIM DO JOGO  "].

(** The pause and the LEDs of the result state. *)
Definition resultPause : list event :=
  [EvLed 2 false; EvLed 1 false; EvLed 0 false; EvDelay 800].

(** The inputs of the examples. *)
Definition idle : inputs := mkInputs 512 512 false false false false.
Definition pressLeft : inputs := mkInputs 512 512 false true false false.
Definition pressCenter : inputs := mkInputs 512 512 false false true false.
Definition pressLeftCenter : inputs :=
  mkInputs 512 512 false true true false.
Definition pressSwitch : inputs := mkInputs 512 512 true false false false.
Definition pressLeftSwitch : inputs :=
  mkInputs 512 512 true true false false.

(** The action state, the left target lit at the clock reading 100. *)
Definition leftLit : game := with_startTime 100 (with_gameState 2 power_on).

(** The events that are assignments to [gameState], outputs, and reads of
    the pins. *)
Definition isStateWrite (e : event) : bool :=
  match e with
  | EvState _ => true
  | _ => false
  end.

(** The joystick pushed down and left, and left only. *)
Definition joyDownLeft : inputs := mkInputs 0 1000 false false false false.
Definition joyLeft : inputs := mkInputs 0 512 false false false false.

(** A session of 14 passes of [loop()]: a game is started from the menu,
    the first round is a hit on the left target after 150 ms, the second
    round is cancelled with the joystick switch, and back in the menu the
    round count is lowered from 10 to 1. *)
Definition staleRound : world :=
  mkWorld
    ([1000; 2000; 2800; 2900; 3050; 4000; 4100; 5000; 5001; 5002]
     ++ [6000; 6001; 7000; 7001; 8000; 8001; 9000; 9001;
         10000; 10001; 11000; 11001; 12000; 12001; 13000; 13001])
    ([pressSwitch; idle; pressLeft; idle; pressSwitch; joyDownLeft]
     ++ repeat joyLeft 8)
    [0; 0; 0]
    [].

(** A preparation phase with a false start: the left button is held at the
    first poll and released at the second; the delay starts at the clock
    reading 0, one poll at 100 is quiet, and at 200 the left button and the
    joystick switch are both pressed. *)
Definition falseStartWorld : world :=
  mkWorld [0; 100; 200] [pressLeft; idle; idle; pressLeftSwitch] [0] [].

(** A whole game of one round: started from the menu, the left target
    lit at the clock reading 2900 and hit at 3050. *)
Definition oneRound : world :=
  mkWorld [1000; 2000; 2800; 2900; 3050] [pressSwitch; idle; pressLeft]
    [0; 0] [].

(** A preparation phase that runs to its end: the delay drawn is 800 ms,
    the poll at 800 finds it over, the left target is lit at 801. *)
Definition goWorld : world :=
  mkWorld [0; 100; 800; 801] [idle; idle] [0; 0] [].

(** The preparation state of the first round. *)
Definition enGarde : game := with_gameState 1 power_on.

Definition isOutput (e : event) : bool :=
  match e with
  | EvLcdClear | EvLcdSetCursor _ _ | EvLcdPrint _ | EvLcdPrintNum _
  | EvLcdWrite _ | EvLed _ _ | EvTone _ _ => true
  | _ => false
  end.

Definition isInput (e : event) : bool :=
  match e with
  | EvReadJoyY | EvReadJoyX | EvReadSwitch | EvReadBtn _ => true
  | _ => false
  end.

(** No input is read after an output was made ([evs] is most recent
    first). *)
Fixpoint inputsFirst (evs : list event) : bool :=
  match evs with
  | [] => true
  | e :: older =>
      (if isInput e then negb (existsb isOutput older) else true)
      && inputsFirst older
  end.

(** No output is made after [gameState] was assigned. *)
Fixpoint outputsBeforeState (evs : list event) : bool :=
  match evs with
  | [] => true
  | e :: older =>
      (if isOutput e then negb (existsb isStateWrite older) else true)
      && outputsBeforeState older
  end.

(** [returns m Q s]: [m] returns from [s], with a result and a state that
    satisfy [Q]. *)
Definition returns {A} (m : M A) (Q : A -> st -> Prop) (s : st) : Prop :=
  exists a s', m s = Some (a, s') /\ Q a s'.

(** What [startNewGame] and [showHighScore] show, most recent first. *)
Definition combatScreen : list event :=
  [EvDelay 1000; EvLcdPrint "COMBATE!"; EvLcdSetCursor 4 1;
   EvLcdPrint "PREPARAR"; EvLcdSetCursor 3 0; EvLcdClear].

Definition hallOfFame (record : Z) : list event :=
  [EvLcdPrint " pts"; EvLcdPrintNum record; EvLcdSetCursor 4 1; EvLcdWrite 1;
   EvLcdPrint " HALL OF FAME "; EvLcdWrite 1; EvLcdSetCursor 0 0; EvLcdClear].

(** The icon of a menu row: the sword, the clock and the trophy. *)
Definition menuIcon (item : Z) : Z :=
  if item =? 0 then 0 else if item =? 1 then 3 else 1.

(** The arrows of the state machine: what [gameState] can be after a pass
    of [loop()] that started with [gameState = a]. *)
Definition allowed (a b : Z) : Prop :=
  (a = 0 /\ (b = 0 \/ b = 1 \/ b = 5)) \/
  (a = 1 /\ (b = 1 \/ b = 2 \/ b = 0)) \/
  (a = 2 /\ (b = 2 \/ b = 3)) \/
  (a = 3 /\ (b = 1 \/ b = 4)) \/
  (a = 4 /\ (b = 4 \/ b = 0)) \/
  (a = 5 /\ (b = 5 \/ b = 0)) \/
  ((a < 0 \/ 5 < a) /\ b = a).

(** What a pass of [loop()] from the variables [g] to the variables [g']
    keeps: which variable can change in which state, and which ranges are
    kept. *)
Definition step_ok (g g' : game) : Prop :=
  allowed (gameState g) (gameState g') /\
  (gameState g <> 0 -> totalRounds g' = totalRounds g) /\
  (0 <= menuOption g <= 2 -> 0 <= menuOption g' <= 2) /\
  (1 <= gameState g <= 3 ->
   menuOption g' = menuOption g /\ lastNavTime g' = lastNavTime g) /\
  (0 <= currentTarget g <= 2 -> 0 <= currentTarget g' <= 2) /\
  (gameState g <> 1 ->
   currentTarget g' = currentTarget g /\ startTime g' = startTime g) /\
  (-200 <= roundScore g <= 1000 -> -200 <= roundScore g' <= 1000) /\
  (gameState g <> 2 ->
   roundScore g' = roundScore g /\ reactionTime g' = reactionTime g) /\
  (gameState g <> 3 -> highScore g' = highScore g) /\
  (3 <= gameState g <= 5 -> totalGameScore g' = totalGameScore g) /\
  (gameState g <> 0 -> gameState g <> 3 ->
   currentRound g' = currentRound g).

(** The level of the LED [i] after the events [l] (most recent first): what
    was last written to it, and low before any write. *)
Fixpoint led (i : Z) (l : list event) : bool :=
  match l with
  | [] => false
  | EvLed j on :: older => if j =? i then on else led i older
  | _ :: older => led i older
  end.

(** The LEDs agree with the state: the LED [i] is lit exactly when the
    sketch is in the action state and [i] is the target. *)
Definition ledsMatch (s : st) : Prop :=
  led 0 (log (env s)) = (gameState (vars s) =? 2) && (0 =? currentTarget (vars s)) /\
  led 1 (log (env s)) = (gameState (vars s) =? 2) && (1 =? currentTarget (vars s)) /\
  led 2 (log (env s)) = (gameState (vars s) =? 2) && (2 =? currentTarget (vars s)).

(** [m] writes to no LED. *)
Definition keepsLeds {A} (m : M A) : Prop :=
  forall s,
    wp m (fun _ s' => forall i, led i (log (env s')) = led i (log (env s))) s.

(** * Reasoning about the sketch *)

Arguments wrap_ulong : simpl never.
Arguments wrap_long : simpl never.
Arguments wrap_int : simpl never.

(** ** Integer types *)

Lemma wrap_ulong_small (z : Z) : 0 <= z <= ULONG_MAX -> wrap_ulong z = z.
Proof.
  unfold wrap_ulong, ULONG_MAX. intros H. apply Z.mod_small. lia.
Qed.

Lemma wrap_ulong_range (z : Z) : 0 <= wrap_ulong z <= ULONG_MAX.
Proof.
  unfold wrap_ulong, ULONG_MAX.
  pose proof (Z.mod_pos_bound z (2 ^ 32) ltac:(lia)). lia.
Qed.

Lemma wrap_long_small (z : Z) : LONG_MIN <= z <= LONG_MAX -> wrap_long z = z.
Proof.
  unfold wrap_long, LONG_MIN, LONG_MAX. intros H.
  rewrite Z.mod_small; lia.
Qed.

Lemma wrap_int_small (z : Z) : - 2 ^ 15 <= z < 2 ^ 15 -> wrap_int z = z.
Proof.
  unfold wrap_int. intros H. rewrite Z.mod_small; lia.
Qed.

Lemma random_range_bounds (lo hi raw : Z) :
  lo < hi -> lo <= random_range lo hi raw < hi.
Proof.
  intros H. unfold random_range.
  destruct (lo >=? hi) eqn:E; [lia|].
  pose proof (Z.mod_pos_bound raw (hi - lo) ltac:(lia)). lia.
Qed.

Lemma random_range_hits (lo hi d : Z) :
  lo <= d < hi -> random_range lo hi (d - lo) = d.
Proof.
  intros H. unfold random_range.
  destruct (lo >=? hi) eqn:E; [lia|].
  rewrite Z.mod_small; lia.
Qed.

(** ** Weakest preconditions *)

Lemma wp_ret {A} (a : A) (Q : A -> st -> Prop) s : Q a s -> wp (ret a) Q s.
Proof. exact (fun H => H). Qed.

Lemma wp_bind {A B} (m : M A) (k : A -> M B) (Q : B -> st -> Prop) s :
  wp m (fun a s' => wp (k a) Q s') s -> wp (bind m k) Q s.
Proof.
  unfold wp, bind. destruct (m s) as [[a s']|]; auto.
Qed.

Lemma wp_conseq {A} (m : M A) (Q Q' : A -> st -> Prop) s :
  wp m Q s -> (forall a s', Q a s' -> Q' a s') -> wp m Q' s.
Proof.
  unfold wp. destruct (m s) as [[a s']|]; auto.
Qed.

Lemma wp_result {A} (m : M A) (Q : A -> st -> Prop) s a s' :
  wp m Q s -> m s = Some (a, s') -> Q a s'.
Proof.
  unfold wp. intros H E. now rewrite E in H.
Qed.

Lemma wp_get {A} (field : game -> A) (Q : A -> st -> Prop) s :
  Q (field (vars s)) s -> wp (get field) Q s.
Proof. exact (fun H => H). Qed.

Lemma wp_set upd v (Q : unit -> st -> Prop) s :
  Q tt (mkSt (upd v (vars s)) (env s)) -> wp (set upd v) Q s.
Proof. exact (fun H => H). Qed.

Lemma wp_emit e (Q : unit -> st -> Prop) s :
  Q tt (mkSt (vars s) (with_log (e :: log (env s)) (env s))) ->
  wp (emit e) Q s.
Proof. exact (fun H => H). Qed.

Lemma wp_millis (Q : Z -> st -> Prop) s :
  (forall t c, clock (env s) = t :: c ->
     Q (wrap_ulong t)
       (mkSt (vars s)
          (with_log (EvMillis :: log (env s)) (with_clock c (env s))))) ->
  wp millis Q s.
Proof.
  unfold wp, millis. destruct (clock (env s)); auto.
Qed.

Lemma wp_poll (Q : inputs -> st -> Prop) s :
  (forall smp p, pins (env s) = smp :: p ->
     Q smp (mkSt (vars s) (with_pins p (env s)))) ->
  wp poll Q s.
Proof.
  unfold wp, poll. destruct (pins (env s)); auto.
Qed.

Lemma wp_random lo hi (Q : Z -> st -> Prop) s :
  (forall raw r, rng (env s) = raw :: r ->
     Q (random_range lo hi raw)
       (mkSt (vars s)
          (with_log (EvRandom :: log (env s)) (with_rng r (env s))))) ->
  wp (random lo hi) Q s.
Proof.
  unfold wp, random. destruct (rng (env s)); auto.
Qed.

(** ** Computations that leave the game variables alone *)

Lemma wp_silent {A} (m : M A) (Q : A -> st -> Prop) s :
  silent m -> (forall a s', vars s' = vars s -> Q a s') -> wp m Q s.
Proof.
  intros Hm HQ. eapply wp_conseq; [apply Hm|]. exact HQ.
Qed.

Lemma silent_ret {A} (a : A) : silent (ret a).
Proof. intros s. reflexivity. Qed.

Lemma silent_bind {A B} (m : M A) (k : A -> M B) :
  silent m -> (forall a, silent (k a)) -> silent (bind m k).
Proof.
  intros Hm Hk s. apply wp_bind. eapply wp_conseq; [apply Hm|].
  cbv beta. intros a s' E. eapply wp_conseq; [apply Hk|].
  cbv beta. intros; congruence.
Qed.

Lemma silent_emit e : silent (emit e).
Proof. intros s. reflexivity. Qed.

Lemma silent_get {A} (field : game -> A) : silent (get field).
Proof. intros s. reflexivity. Qed.

Lemma silent_millis : silent millis.
Proof. intros s. apply wp_millis. reflexivity. Qed.

Lemma silent_poll : silent poll.
Proof. intros s. apply wp_poll. reflexivity. Qed.

Lemma silent_random lo hi : silent (random lo hi).
Proof. intros s. apply wp_random. reflexivity. Qed.

Lemma silent_when c m : silent m -> silent (when c m).
Proof. unfold when. destruct c; auto using silent_ret. Qed.

Lemma silent_if {A} (c : bool) (m1 m2 : M A) :
  silent m1 -> silent m2 -> silent (if c then m1 else m2).
Proof. destruct c; auto. Qed.

Lemma silent_forM l body : (forall i, silent (body i)) -> silent (forM l body).
Proof.
  intros Hb. induction l as [|i l IH]; cbn [forM].
  - apply silent_ret.
  - apply silent_bind; auto.
Qed.

Lemma silent_forFold {A} l (body : A -> Z -> M A) a :
  (forall a i, silent (body a i)) -> silent (forFold l body a).
Proof.
  intros Hb. revert a. induction l as [|i l IH]; intros a; cbn [forFold].
  - apply silent_ret.
  - apply silent_bind; auto.
Qed.

Lemma silent_loopM {R} fuel (body : M (option R)) :
  silent body -> silent (loopM fuel body).
Proof.
  intros Hb. induction fuel as [|fuel IH]; cbn [loopM].
  - intros s. exact I.
  - apply silent_bind; auto. intros [x|]; auto using silent_ret.
Qed.

Lemma silent_whilePolling {R} (body : M (option R)) :
  silent body -> silent (whilePolling body).
Proof. intros Hb s. apply (silent_loopM _ _ Hb). Qed.

Create HintDb silent.
#[export] Hint Resolve silent_ret silent_bind silent_emit silent_get
  silent_millis silent_poll silent_random silent_when silent_if silent_forM
  silent_forFold silent_loopM silent_whilePolling : silent.

Ltac silence :=
  repeat first
    [ progress intros
    | apply silent_bind | apply silent_ret | apply silent_emit
    | apply silent_get | apply silent_millis | apply silent_poll
    | apply silent_random | apply silent_when | apply silent_if
    | apply silent_forM | apply silent_forFold | apply silent_whilePolling
    | apply silent_loopM ].

Lemma silent_drawMenu : silent drawMenu.
Proof.
  unfold drawMenu, lcd_clear, lcd_setCursor, lcd_write, lcd_print,
    lcd_printNum. silence.
Qed.

Lemma silent_pressed_btn smp i : silent (pressed_btn smp i).
Proof. unfold pressed_btn. silence. Qed.

Lemma silent_pressed_joySwitch smp : silent (pressed_joySwitch smp).
Proof. unfold pressed_joySwitch. silence. Qed.

Lemma silent_leds_off l : silent (forM l (fun i => digitalWrite_led i false)).
Proof. unfold digitalWrite_led. silence. Qed.

Lemma silent_buttonsReleased : silent buttonsReleased.
Proof. unfold buttonsReleased, pressed_btn, delay. silence. Qed.

(** ** Stepping through a computation *)

Lemma wp_loopM {R} fuel (body : M (option R)) (Inv : st -> Prop)
    (Q : R -> st -> Prop) :
  (forall s, Inv s ->
     wp body (fun r s' => match r with
                          | Some x => Q x s'
                          | None => Inv s'
                          end) s) ->
  forall s, Inv s -> wp (loopM fuel body) Q s.
Proof.
  intros Hb. induction fuel as [|fuel IH]; intros s Hs; cbn [loopM].
  - exact I.
  - apply wp_bind. eapply wp_conseq; [apply Hb, Hs|].
    cbv beta. intros [x|] s' H; [exact H|]. apply IH, H.
Qed.

Lemma wp_whileTiming {R} (body : M (option R)) (Inv : st -> Prop)
    (Q : R -> st -> Prop) :
  (forall s, Inv s ->
     wp body (fun r s' => match r with
                          | Some x => Q x s'
                          | None => Inv s'
                          end) s) ->
  forall s, Inv s -> wp (whileTiming body) Q s.
Proof. intros Hb s Hs. apply (wp_loopM _ _ Inv Q Hb s Hs). Qed.

Ltac wp_step :=
  cbv beta;
  lazymatch goal with
  | |- wp (bind (whileTiming _) _) _ _ => fail
  | |- wp (bind _ _) _ _ => apply wp_bind
  | |- wp (ret _) _ _ => apply wp_ret
  | |- wp (get _) _ _ => apply wp_get
  | |- wp (set _ _) _ _ => apply wp_set
  | |- wp (set_gameState _) _ _ => unfold set_gameState
  | |- wp (when _ _) _ _ => unfold when
  | |- wp (if ?c then _ else _) _ _ => destruct c eqn:?
  | |- wp _ _ _ =>
      apply wp_silent;
      [ solve [silence; auto using silent_drawMenu, silent_pressed_btn,
                 silent_pressed_joySwitch, silent_buttonsReleased]
      | intros ? [? ?] ?; cbn [vars env] in *; subst ]
  end.

Ltac wp_run := repeat wp_step.

(** ** Invariants of the game variables *)

Ltac bool_facts :=
  repeat match goal with
         | H : context [_ >? _] |- _ => rewrite Z.gtb_ltb in H
         | H : (_ <? _) = true |- _ => apply Z.ltb_lt in H
         | H : (_ <? _) = false |- _ => apply Z.ltb_ge in H
         | H : (_ =? _) = true |- _ => apply Z.eqb_eq in H
         | H : (_ =? _) = false |- _ => apply Z.eqb_neq in H
         | H : (_ && _) = true |- _ => apply andb_prop in H; destruct H
         end.

Ltac unwrap_int :=
  repeat match goal with
         | |- context [wrap_int ?z] =>
             rewrite (wrap_int_small z) by (cbn; lia)
         | H : context [wrap_int ?z] |- _ =>
             rewrite (wrap_int_small z) in H by (cbn; lia)
         end.

Ltac inv_solve :=
  unfold inv in *; cbn in *; bool_facts;
  repeat match goal with
         | H : _ /\ _ |- _ => destruct H
         end;
  repeat match goal with
         | |- _ /\ _ => split
         | |- ?P -> _ =>
             let p := fresh in
             intros p;
             repeat match goal with
                    | H : P -> _ |- _ => specialize (H p)
                    end
         end;
  unwrap_int; try lia.

Lemma inv_handleMenu R C h s :
  inv R C h (vars s) -> gameState (vars s) = 0 ->
  wp handleMenu (fun _ s' => inv R C h (vars s')) s.
Proof.
  intros H H0. unfold handleMenu, startNewGame, showHighScore.
  repeat lazymatch goal with
         | |- wp (bind (when _ _) _) _ _ => fail
         | _ => wp_step
         end.
  apply wp_bind.
  apply wp_conseq with
    (Q := fun _ s' => inv R C h (vars s') /\ gameState (vars s') = 0).
  - wp_run. all: split; [inv_solve | assumption].
  - cbv beta. clear. intros _ s [H H0]. wp_run. all: inv_solve.
Qed.

Lemma inv_gameOver R C h s :
  inv R C h (vars s) -> gameState (vars s) = 3 ->
  wp gameOver (fun _ s' => inv R C h (vars s')) s.
Proof.
  intros H H0. unfold gameOver. wp_run.
  all: inv_solve.
Qed.

Lemma inv_processRoundResult R C h success s :
  inv R C h (vars s) -> 2 <= gameState (vars s) <= 3 ->
  wp (processRoundResult success)
     (fun _ s' => inv R C h (vars s') /\ gameState (vars s') = 3) s.
Proof.
  intros H H0. unfold processRoundResult. wp_run.
  all: split; [inv_solve | reflexivity].
Qed.

Lemma inv_checkReflexes R C h s :
  inv R C h (vars s) -> gameState (vars s) = 2 ->
  wp checkReflexes (fun _ s' => inv R C h (vars s')) s.
Proof.
  intros H H0. unfold checkReflexes.
  apply wp_bind, wp_poll. intros smp p _.
  set (s0 := mkSt (vars s) (with_pins p (env s))).
  assert (Hs : inv R C h (vars s0) /\ 2 <= gameState (vars s0) <= 3)
    by (cbn; split; [assumption | lia]).
  clearbody s0. clear H H0. revert s0 Hs.
  assert (Hbody : forall i s0,
    inv R C h (vars s0) /\ 2 <= gameState (vars s0) <= 3 ->
    wp (checkButton smp i)
       (fun _ s' => inv R C h (vars s') /\ 2 <= gameState (vars s') <= 3)
       s0).
  { intros i s0 [H H0]. unfold checkButton.
    apply wp_bind, wp_silent; [apply silent_pressed_btn|].
    intros b [g1 e1] E. cbn in E. subst g1. unfold when.
    destruct b; [|apply wp_ret; cbn; auto].
    apply wp_bind, wp_millis. intros t c _.
    apply wp_bind, wp_get, wp_bind, wp_set, wp_bind, wp_get, wp_bind, wp_emit,
      wp_bind, wp_get.
    cbv beta.
    match goal with
    | |- wp (if ?c then _ else _) _ _ => destruct c
    end;
      (eapply wp_conseq;
       [ apply (inv_processRoundResult R C h); cbn; [assumption | lia]
       | cbv beta; intros _ s' [? ->]; split; [assumption | lia] ]). }
  change targets with [0; 1; 2]. cbn [forM].
  intros s0 Hs.
  apply wp_bind. eapply wp_conseq; [apply Hbody, Hs|]. cbv beta.
  intros _ s1 Hs1.
  apply wp_bind. eapply wp_conseq; [apply Hbody, Hs1|]. cbv beta.
  intros _ s2 Hs2.
  apply wp_bind. eapply wp_conseq; [apply Hbody, Hs2|]. cbv beta.
  intros _ s3 Hs3. apply wp_ret. apply Hs3.
Qed.

Lemma inv_runEnGarde R C h s :
  inv R C h (vars s) -> gameState (vars s) = 1 ->
  wp runEnGarde (fun _ s' => inv R C h (vars s')) s.
Proof.
  intros H H0. unfold runEnGarde.
  wp_run. apply wp_bind.
  apply wp_whileTiming with
    (Inv := fun s' => inv R C h (vars s') /\ gameState (vars s') = 1).
  - clear. intros s [H H0]. unfold delayPoll.
    change targets with [0; 1; 2]. cbn [forReturn].
    unfold falseStart, cancelGame. wp_run.
    all: cbn; try split; try inv_solve.
  - cbn. auto.
Qed.

Lemma inv_loop R C h s :
  inv R C h (vars s) -> wp loop (fun _ s' => inv R C h (vars s')) s.
Proof.
  intros H. unfold loop. apply wp_bind, wp_get. cbv beta.
  destruct (gameState (vars s) =? 0) eqn:E0.
  { apply inv_handleMenu; [assumption | lia]. }
  destruct (gameState (vars s) =? 1) eqn:E1.
  { apply inv_runEnGarde; [assumption | lia]. }
  destruct (gameState (vars s) =? 2) eqn:E2.
  { apply inv_checkReflexes; [assumption | lia]. }
  destruct (gameState (vars s) =? 3) eqn:E3.
  { unfold gameOver. wp_run. all: inv_solve. }
  wp_run. all: inv_solve.
Qed.

Lemma inv_run R C h n s :
  inv R C h (vars s) -> wp (run n) (fun _ s' => inv R C h (vars s')) s.
Proof.
  revert s. induction n as [|n IH]; intros s H; cbn [run].
  - apply wp_ret, H.
  - apply wp_bind. eapply wp_conseq; [apply inv_loop, H|].
    cbv beta. intros _ s' H'. apply IH, H'.
Qed.

(** ** Runs of the two loops of [runEnGarde] *)

Arguments whilePolling : simpl never.
Arguments whileTiming : simpl never.

Lemma bind_eq {A B} (m : M A) (k : A -> M B) s a s' :
  m s = Some (a, s') -> bind m k s = k a s'.
Proof. unfold bind. now intros ->. Qed.

Lemma buttonsReleased_eq g ck smp p rg lg :
  buttonsReleased (mkSt g (mkWorld ck (smp :: p) rg lg)) =
  Some (if anyTarget smp then None else Some tt,
        mkSt g (mkWorld ck p rg
                  (EvDelay 10 :: readsUpTo 2 ++ lg))).
Proof. destruct smp as [? ? ? [] [] []]; reflexivity. Qed.

Lemma gate_opens busy : forall free p g ck rg lg,
  Forall (fun smp => anyTarget smp = true) busy ->
  anyTarget free = false ->
  exists l,
    whilePolling buttonsReleased
      (mkSt g (mkWorld ck (busy ++ free :: p) rg lg)) =
    Some (tt, mkSt g (mkWorld ck p rg (l ++ lg))).
Proof.
  induction busy as [|b busy IH]; intros free p g ck rg lg Hbusy Hfree.
  - unfold whilePolling. cbn [env pins app List.length loopM].
    erewrite bind_eq by apply buttonsReleased_eq.
    rewrite Hfree. eexists (_ :: _ ++ []). cbn. rewrite app_nil_r.
    reflexivity.
  - inversion Hbusy as [|? ? Hb Hbusy']; subst.
    unfold whilePolling. cbn [env pins app List.length loopM].
    erewrite bind_eq by apply buttonsReleased_eq.
    rewrite Hb.
    destruct (IH free p g ck rg (EvDelay 10 :: readsUpTo 2 ++ lg)
                Hbusy' Hfree) as [l Hl].
    unfold whilePolling in Hl. cbn [env pins] in Hl. rewrite Hl.
    exists (l ++ EvDelay 10 :: readsUpTo 2).
    rewrite <- app_assoc. reflexivity.
Qed.

Lemma delayPoll_over rd ds g t c ps rg lg :
  ~ wrap_ulong (wrap_ulong t - ds) < wrap_ulong rd ->
  delayPoll rd ds (mkSt g (mkWorld (t :: c) ps rg lg)) =
  Some (Some false, mkSt g (mkWorld c ps rg (EvMillis :: lg))).
Proof.
  intros H. unfold delayPoll.
  erewrite bind_eq by reflexivity.
  destruct (Z.ltb_spec (wrap_ulong (wrap_ulong t - ds)) (wrap_ulong rd));
    [lia | reflexivity].
Qed.

Lemma delayPoll_quiet rd ds g t c smp p rg lg :
  wrap_ulong (wrap_ulong t - ds) < wrap_ulong rd ->
  quiet smp ->
  delayPoll rd ds (mkSt g (mkWorld (t :: c) (smp :: p) rg lg)) =
  Some (None,
        mkSt g (mkWorld c p rg
                  (EvReadSwitch :: readsUpTo 2 ++ EvMillis :: lg))).
Proof.
  intros H [Ht Hs]. unfold delayPoll.
  erewrite bind_eq by reflexivity.
  destruct (Z.ltb_spec (wrap_ulong (wrap_ulong t - ds)) (wrap_ulong rd));
    [|lia].
  destruct smp as [? ? sw [] [] []]; try discriminate Ht.
  cbn in Hs. subst sw. reflexivity.
Qed.

Lemma delayPoll_falseStart rd ds g t c smp p rg lg :
  wrap_ulong (wrap_ulong t - ds) < wrap_ulong rd ->
  anyTarget smp = true ->
  delayPoll rd ds (mkSt g (mkWorld (t :: c) (smp :: p) rg lg)) =
  Some (Some true,
        mkSt (with_totalGameScore (wrap_long (totalGameScore g - 500)) g)
          (mkWorld c p rg
             (EvDelay 1500 :: EvLcdPrint "  FALTA! -500   "
              :: EvLcdSetCursor 0 1 :: EvTone 100 400
              :: readsUpTo (firstPressed smp) ++ EvMillis :: lg))).
Proof.
  intros H Ht. unfold delayPoll.
  erewrite bind_eq by reflexivity.
  destruct (Z.ltb_spec (wrap_ulong (wrap_ulong t - ds)) (wrap_ulong rd));
    [|lia].
  destruct smp as [? ? sw [] [] []]; try discriminate Ht; reflexivity.
Qed.

Lemma delay_goes_by rd ds ts : forall qs c p g rg lg,
  List.length ts = List.length qs ->
  Forall (fun t => wrap_ulong (wrap_ulong t - ds) < wrap_ulong rd) ts ->
  Forall quiet qs ->
  exists l,
    whileTiming (delayPoll rd ds)
      (mkSt g (mkWorld (ts ++ c) (qs ++ p) rg lg)) =
    whileTiming (delayPoll rd ds) (mkSt g (mkWorld c p rg (l ++ lg))).
Proof.
  induction ts as [|t ts IH]; intros qs c p g rg lg Hlen Hts Hqs.
  - destruct qs; [|discriminate Hlen]. exists []. reflexivity.
  - destruct qs as [|q qs]; [discriminate Hlen|].
    inversion Hts as [|? ? Ht Hts']; subst.
    inversion Hqs as [|? ? Hq Hqs']; subst.
    injection Hlen as Hlen.
    unfold whileTiming at 1. cbn [env clock app List.length loopM].
    erewrite bind_eq by (apply delayPoll_quiet; assumption).
    destruct (IH qs c p g rg
                (EvReadSwitch :: readsUpTo 2 ++ EvMillis :: lg)
                Hlen Hts' Hqs') as [l Hl].
    unfold whileTiming at 1 in Hl. cbn [env clock] in Hl. rewrite Hl.
    exists (l ++ EvReadSwitch :: readsUpTo 2 ++ [EvMillis]).
    repeat (rewrite <- app_assoc; cbn [app]). reflexivity.
Qed.

(** Computing a handler on a state that is given by its components. *)
Ltac exec :=
  cbv [bind ret get set emit when set_gameState millis poll random
       analogRead_joyY analogRead_joyX pressed_joySwitch pressed_btn
       delay tone digitalWrite_led lcd_clear lcd_setCursor lcd_print
       lcd_printNum lcd_write forM forReturn forFold
       targets upto numTargets map seq Z.of_nat Z.to_nat Pos.to_nat
       Pos.iter_op Nat.add Pos.of_succ_nat Pos.succ
       vars env clock pins rng log with_log with_clock with_pins with_rng].

(** A false start: the buttons are released after the polls [busy], the
    delay loop goes round on the quiet polls [qs], and the poll [fs] sees a
    target button pressed while the delay is still running. *)
Lemma runEnGarde_false_start g busy free qs fs p raw r t0 ts t c lg :
  Forall (fun smp => anyTarget smp = true) busy ->
  anyTarget free = false ->
  Forall quiet qs ->
  anyTarget fs = true ->
  List.length ts = List.length qs ->
  Forall (waiting raw t0) ts ->
  waiting raw t0 t ->
  exists l,
    runEnGarde
      (mkSt g (mkWorld (t0 :: ts ++ t :: c) (busy ++ free :: qs ++ fs :: p)
                 (raw :: r) lg)) =
    Some (tt,
          mkSt (with_totalGameScore (wrap_long (totalGameScore g - 500)) g)
            (mkWorld c p r
               (EvDelay 1500 :: EvLcdPrint "  FALTA! -500   "
                :: EvLcdSetCursor 0 1 :: EvTone 100 400
                :: readsUpTo (firstPressed fs) ++ EvMillis :: l))).
Proof.
  intros Hbusy Hfree Hqs Hfs Hlen Hts Ht.
  unfold runEnGarde. exec.
  match goal with
  | |- context [whilePolling buttonsReleased
                  (mkSt g (mkWorld ?ck _ ?rg ?lg0))] =>
      destruct (gate_opens busy free (qs ++ fs :: p) g ck rg lg0 Hbusy Hfree)
        as [l1 Hl1]
  end.
  rewrite Hl1. exec.
  match goal with
  | |- context [whileTiming (delayPoll ?rd ?ds)
                  (mkSt _ (mkWorld _ _ ?rg ?lg0))] =>
      destruct (delay_goes_by rd ds ts qs (t :: c) (fs :: p) g rg lg0
                  Hlen Hts Hqs) as [l2 Hl2]
  end.
  rewrite Hl2. unfold whileTiming. cbn [env clock List.length loopM].
  erewrite bind_eq by (apply delayPoll_falseStart; assumption).
  exec. eexists. reflexivity.
Qed.

Lemma target_drawn raw :
  let ct := wrap_int (random_range 0 3 raw) in ct = 0 \/ ct = 1 \/ ct = 2.
Proof.
  cbv zeta. pose proof (random_range_bounds 0 3 raw ltac:(lia)).
  rewrite wrap_int_small by lia. lia.
Qed.

(** ** Scoring a press *)

(** The events of [new] that come on top of [old]. *)
Ltac prefix_of old new :=
  lazymatch new with
  | old => constr:(@nil event)
  | ?e :: ?rest => let r := prefix_of old rest in constr:(e :: r)
  end.

Ltac exists_new_events :=
  lazymatch goal with
  | |- exists l, Some (_, mkSt _ (mkWorld _ _ _ (?e :: ?new))) =
                 Some (_, mkSt _ (mkWorld _ _ _ (?e :: l ++ ?old))) /\ _ =>
      let l := prefix_of old new in exists l
  end.

Ltac not_in_list :=
  cbn [In]; intuition discriminate.

(** A press of the target button: the score of the round, the total, and
    the state, with the assignment to [gameState] as the last event. *)
Lemma processRoundResult_hit g ck ps rg lg :
  let rs := if reactionTime g >? 1000 then 0
            else wrap_int (wrap_ulong (1000 - reactionTime g)) in
  exists l,
    processRoundResult true (mkSt g (mkWorld ck ps rg lg)) =
    Some (tt,
          mkSt (with_gameState 3
                  (with_totalGameScore (wrap_long (totalGameScore g + rs))
                     (with_roundScore rs g)))
            (mkWorld ck ps rg (EvState 3 :: l ++ lg))) /\
    (forall v, ~ In (EvState v) l).
Proof.
  intros rs. unfold processRoundResult. exec.
  destruct (reactionTime g >? 1000); exec;
    cbn [roundScore with_roundScore]; fold rs;
    destruct (rs >? 800); exec; cbn [roundScore with_roundScore
      totalGameScore with_totalGameScore reactionTime];
    exists_new_events; (split; [reflexivity | intros v; not_in_list]).
Qed.

Lemma processRoundResult_miss g ck ps rg lg :
  exists l,
    processRoundResult false (mkSt g (mkWorld ck ps rg lg)) =
    Some (tt,
          mkSt (with_gameState 3
                  (with_totalGameScore (wrap_long (totalGameScore g + -200))
                     (with_roundScore (-200) g)))
            (mkWorld ck ps rg (EvState 3 :: l ++ lg))) /\
    (forall v, ~ In (EvState v) l).
Proof.
  unfold processRoundResult. exec.
  cbn [roundScore with_roundScore totalGameScore with_totalGameScore].
  exists_new_events; (split; [reflexivity | intros v; not_in_list]).
Qed.

Lemma checkButton_pressed smp i g t c ps rg lg :
  btn smp i = true ->
  checkButton smp i (mkSt g (mkWorld (t :: c) ps rg lg)) =
  processRoundResult (i =? currentTarget g)
    (mkSt (with_reactionTime (wrap_ulong (wrap_ulong t - startTime g)) g)
       (mkWorld c ps rg
          (EvLed (currentTarget g) false :: EvMillis :: EvReadBtn i :: lg))).
Proof.
  intros H. unfold checkButton. exec. rewrite H.
  cbn [currentTarget with_reactionTime].
  destruct (i =? currentTarget g); reflexivity.
Qed.

Lemma checkButton_released smp i s :
  btn smp i = false ->
  checkButton smp i s =
  Some (tt, mkSt (vars s) (with_log (EvReadBtn i :: log (env s)) (env s))).
Proof.
  intros H. unfold checkButton. exec. rewrite H. reflexivity.
Qed.

(** ** Single passes *)

Lemma drawMenu_returns g w :
  exists l, drawMenu (mkSt g w) = Some (tt, mkSt g (with_log l w)).
Proof.
  unfold drawMenu. exec.
  destruct (menuOption g =? 2); cbn [Z.add Z.eqb Pos.eqb Pos.add];
    eexists; reflexivity.
Qed.

(** Reading the fields of a game that is given by its assignments. *)
Ltac fields :=
  cbn [totalRounds gameState menuOption lastMenuOption currentRound
       startTime reactionTime roundScore totalGameScore highScore
       lastNavTime currentTarget
       with_totalRounds with_gameState with_menuOption with_lastMenuOption
       with_currentRound with_startTime with_reactionTime with_roundScore
       with_totalGameScore with_highScore with_lastNavTime
       with_currentTarget andb orb].

Ltac draw :=
  lazymatch goal with
  | |- context [drawMenu (mkSt ?g1 ?w1)] =>
      let l := fresh "l" in
      destruct (drawMenu_returns g1 w1) as [l ->]
  end.

(** A pass of [handleMenu] on the rounds row, joystick not moved
    vertically, navigation not throttled. *)
Lemma handleMenu_adjusts g smp p t t' c rg lg :
  menuOption g = 1 ->
  100 <= joyY smp <= 900 ->
  200 < wrap_ulong (wrap_ulong t - lastNavTime g) ->
  1 <= totalRounds g <= 99 ->
  exists s',
    handleMenu (mkSt g (mkWorld (t :: t' :: c) (smp :: p) rg lg)) =
      Some (tt, s') /\
    totalRounds (vars s') =
      (if joyX smp >? 900 then Z.min 99 (totalRounds g + 1)
       else if joyX smp <? 100 then Z.max 1 (totalRounds g - 1)
       else totalRounds g).
Proof.
  intros Hmo Hy Hnav Hr.
  assert (E1 : (menuOption g =? 1) = true) by (rewrite Hmo; reflexivity).
  assert (E0 : (menuOption g =? 0) = false) by (rewrite Hmo; reflexivity).
  unfold handleMenu, startNewGame, showHighScore. exec.
  replace (wrap_ulong (wrap_ulong t - lastNavTime g) >? 200) with true
    by (symmetry; apply Z.gtb_lt; lia).
  replace (joyY smp <? 100) with false by (symmetry; apply Z.ltb_ge; lia).
  replace (joyY smp >? 900) with false
    by (symmetry; rewrite Z.gtb_ltb; apply Z.ltb_ge; lia).
  fields. exec. rewrite E1.
  destruct (Z.gtb_spec (joyX smp) 900) as [Hx|Hx]; exec; fields.
  - replace (joyX smp <? 100) with false by (symmetry; apply Z.ltb_ge; lia).
    rewrite (wrap_int_small (totalRounds g + 1)) by lia.
    destruct (Z.gtb_spec (totalRounds g + 1) 99) as [H99|H99];
      exec; draw; exec; fields;
      destruct (joySwitch smp); exec; fields; rewrite ?E0, ?E1; exec;
      eexists; (split; [reflexivity|]); cbn [vars]; fields; lia.
  - destruct (Z.ltb_spec (joyX smp) 100) as [Hx'|Hx']; exec; fields.
    + rewrite (wrap_int_small (totalRounds g - 1)) by lia.
      destruct (Z.ltb_spec (totalRounds g - 1) 1) as [H1|H1];
        exec; draw; exec; fields;
        destruct (joySwitch smp); exec; fields; rewrite ?E0, ?E1; exec;
        eexists; (split; [reflexivity|]); cbn [vars]; fields; lia.
    + destruct (joySwitch smp); exec; fields; rewrite ?E0, ?E1; exec;
        eexists; (split; [reflexivity|]); cbn [vars]; fields; lia.
Qed.

(** The delay runs out: the poll at the clock reading [t] finds it over,
    the target is drawn from [raw2] and lit at the reading [t1].  [l] is
    what the two loops did. *)
Lemma runEnGarde_go g busy free qs p raw raw2 r t0 ts t t1 c lg :
  Forall (fun smp => anyTarget smp = true) busy ->
  anyTarget free = false ->
  Forall quiet qs ->
  List.length ts = List.length qs ->
  Forall (waiting raw t0) ts ->
  ~ waiting raw t0 t ->
  let ct := wrap_int (random_range 0 3 raw2) in
  exists l,
    runEnGarde
      (mkSt g (mkWorld (t0 :: ts ++ t :: t1 :: c) (busy ++ free :: qs ++ p)
                 (raw :: raw2 :: r) lg)) =
    Some (tt,
          mkSt (with_startTime (wrap_ulong t1)
                  (with_currentTarget ct (with_gameState 2 g)))
            (mkWorld c p r
               (EvMillis :: EvTone 1500 150 :: EvLed ct true
                :: EvLcdPrint (goText ct) :: EvLcdSetCursor 0 1
                :: EvRandom :: EvState 2 :: EvMillis
                :: l ++ enGardeScreen g ++ lg))).
Proof.
  intros Hbusy Hfree Hqs Hlen Hts Ht ct.
  unfold runEnGarde. exec.
  match goal with
  | |- context [whilePolling buttonsReleased
                  (mkSt g (mkWorld ?ck _ ?rg ?lg0))] =>
      destruct (gate_opens busy free (qs ++ p) g ck rg lg0 Hbusy Hfree)
        as [l1 Hl1]
  end.
  rewrite Hl1. exec.
  match goal with
  | |- context [whileTiming (delayPoll ?rd ?ds)
                  (mkSt _ (mkWorld _ _ ?rg ?lg0))] =>
      destruct (delay_goes_by rd ds ts qs (t :: t1 :: c) p g rg lg0
                  Hlen Hts Hqs) as [l2 Hl2]
  end.
  rewrite Hl2. unfold whileTiming. cbn [env clock List.length loopM].
  erewrite bind_eq by (apply delayPoll_over; assumption).
  exec. fold ct.
  exists (l2 ++ EvMillis :: EvRandom :: EvDelay 200 :: l1).
  unfold enGardeScreen.
  repeat (rewrite <- app_assoc; cbn [app]).
  destruct (target_drawn raw2) as [E|[E|E]]; fold ct in E;
    cbn [currentTarget with_currentTarget]; rewrite E; reflexivity.
Qed.

Lemma loop_enGarde s : gameState (vars s) = 1 -> loop s = runEnGarde s.
Proof.
  intros H. unfold loop, bind, get. rewrite H. reflexivity.
Qed.

Lemma delayPoll_cancel rd ds g t c smp p rg lg :
  wrap_ulong (wrap_ulong t - ds) < wrap_ulong rd ->
  anyTarget smp = false ->
  joySwitch smp = true ->
  exists s',
    delayPoll rd ds (mkSt g (mkWorld (t :: c) (smp :: p) rg lg)) =
      Some (Some true, s') /\
    vars s' = with_lastMenuOption (-1) (with_gameState 0 g).
Proof.
  intros H Ht Hs. unfold delayPoll.
  erewrite bind_eq by reflexivity.
  destruct (Z.ltb_spec (wrap_ulong (wrap_ulong t - ds)) (wrap_ulong rd));
    [|lia].
  destruct smp as [? ? sw [] [] []]; try discriminate Ht.
  cbn in Hs. subst sw. unfold falseStart, cancelGame.
  repeat progress
    (exec; cbn [btn Z.eqb Pos.eqb btnLeft btnCenter btnRight joySwitch]).
  fields. draw.
  eexists. split; reflexivity.
Qed.

Lemma gameOver_eq g w :
  gameOver (mkSt g w) =
  Some (tt,
        if totalGameScore g >? highScore g
        then mkSt (with_highScore (totalGameScore g) (with_gameState 4 g))
               (with_log (recordEvents (totalGameScore g)
                            ++ EvLcdClear :: EvState 4 :: log w) w)
        else mkSt (with_gameState 4 g)
               (with_log (closingEvents (totalGameScore g)
                            ++ EvLcdClear :: EvState 4 :: log w) w)).
Proof.
  unfold gameOver. exec. fields.
  destruct (totalGameScore g >? highScore g); reflexivity.
Qed.

Lemma loop_result g w :
  gameState g = 3 ->
  loop (mkSt g w) =
  if currentRound g <? totalRounds g
  then Some (tt,
             mkSt (with_gameState 1
                     (with_currentRound (wrap_int (currentRound g + 1)) g))
               (with_log (EvState 1 :: resultPause ++ log w) w))
  else gameOver (mkSt g (with_log (resultPause ++ log w) w)).
Proof.
  intros H. unfold loop. exec. rewrite H. cbn [Z.eqb Pos.eqb].
  destruct (currentRound g <? totalRounds g); reflexivity.
Qed.

Lemma loop_over g ck smp p rg lg :
  gameState g = 4 \/ gameState g = 5 ->
  exists s',
    loop (mkSt g (mkWorld ck (smp :: p) rg lg)) = Some (tt, s') /\
    vars s' =
      (if joySwitch smp || btnCenter smp
       then with_lastMenuOption (-1) (with_menuOption 0 (with_gameState 0 g))
       else g).
Proof.
  intros H. unfold loop. exec.
  assert (E : (gameState g =? 0) = false /\ (gameState g =? 1) = false /\
              (gameState g =? 2) = false /\ (gameState g =? 3) = false /\
              ((gameState g =? 4) || (gameState g =? 5)) = true)
    by (destruct H as [-> | ->]; repeat split; reflexivity).
  destruct E as (-> & -> & -> & -> & ->).
  change (btn smp 1) with (btnCenter smp).
  destruct (joySwitch smp); [|destruct (btnCenter smp)]; exec; fields.
  - draw. eexists. split; reflexivity.
  - draw. eexists. split; reflexivity.
  - eexists. split; reflexivity.
Qed.

Lemma inv_reachable g :
  reachable g -> inv True True 0 g.
Proof.
  intros (n & w & w' & E).
  apply (wp_result _ _ _ _ _ (inv_run True True 0 n (mkSt power_on w)
           ltac:(unfold inv; cbn; lia)) E).
Qed.

(** ** More runs of the preparation phase *)


Lemma delayPoll_cancel_tapes rd ds g t c smp p rg lg :
  wrap_ulong (wrap_ulong t - ds) < wrap_ulong rd ->
  anyTarget smp = false ->
  joySwitch smp = true ->
  exists s',
    delayPoll rd ds (mkSt g (mkWorld (t :: c) (smp :: p) rg lg)) =
      Some (Some true, s') /\
    vars s' = with_lastMenuOption (-1) (with_gameState 0 g) /\
    clock (env s') = c /\ pins (env s') = p /\ rng (env s') = rg.
Proof.
  intros H Ht Hs. unfold delayPoll.
  erewrite bind_eq by reflexivity.
  destruct (Z.ltb_spec (wrap_ulong (wrap_ulong t - ds)) (wrap_ulong rd));
    [|lia].
  destruct smp as [? ? sw [] [] []]; try discriminate Ht.
  cbn in Hs. subst sw. unfold falseStart, cancelGame.
  repeat progress
    (exec; cbn [btn Z.eqb Pos.eqb btnLeft btnCenter btnRight joySwitch]).
  fields. draw.
  eexists. repeat split.
Qed.

(** The joystick switch pressed during the delay, no target button
    pressed in that poll. *)
Lemma runEnGarde_cancel g busy free qs sw p raw r t0 ts t c lg :
  Forall (fun smp => anyTarget smp = true) busy ->
  anyTarget free = false ->
  Forall quiet qs ->
  anyTarget sw = false ->
  joySwitch sw = true ->
  List.length ts = List.length qs ->
  Forall (waiting raw t0) ts ->
  waiting raw t0 t ->
  exists s',
    runEnGarde
      (mkSt g (mkWorld (t0 :: ts ++ t :: c) (busy ++ free :: qs ++ sw :: p)
                 (raw :: r) lg)) = Some (tt, s') /\
    vars s' = with_lastMenuOption (-1) (with_gameState 0 g) /\
    clock (env s') = c /\ pins (env s') = p /\ rng (env s') = r.
Proof.
  intros Hbusy Hfree Hqs Hsw Hjs Hlen Hts Ht.
  unfold runEnGarde. exec.
  match goal with
  | |- context [whilePolling buttonsReleased
                  (mkSt g (mkWorld ?ck _ ?rg ?lg0))] =>
      destruct (gate_opens busy free (qs ++ sw :: p) g ck rg lg0 Hbusy Hfree)
        as [l1 Hl1]
  end.
  rewrite Hl1. exec.
  match goal with
  | |- context [whileTiming (delayPoll ?rd ?ds)
                  (mkSt _ (mkWorld _ _ ?rg ?lg0))] =>
      destruct (delay_goes_by rd ds ts qs (t :: c) (sw :: p) g rg lg0
                  Hlen Hts Hqs) as [l2 Hl2];
      rewrite Hl2; unfold whileTiming; cbn [env clock List.length loopM];
      destruct (delayPoll_cancel_tapes rd ds g t c sw p rg (l2 ++ lg0)
                  Ht Hsw Hjs) as (s' & E & Hv & Hc & Hp & Hr)
  end.
  erewrite bind_eq by exact E. exec.
  exists s'. auto.
Qed.

(** ** Clock arithmetic *)

(** The difference of two readings of [millis()] is the time between them,
    also when the clock has rolled over in between. *)
Lemma elapsed_across_rollover (t0 e : Z) :
  0 <= e <= ULONG_MAX ->
  wrap_ulong (wrap_ulong (t0 + e) - wrap_ulong t0) = e.
Proof.
  intros H. unfold wrap_ulong, ULONG_MAX in *.
  rewrite Zminus_mod_idemp_l, Zminus_mod_idemp_r.
  replace (t0 + e - t0) with e by lia.
  apply Z.mod_small. lia.
Qed.

Lemma randomDelay_value (raw : Z) :
  wrap_ulong (wrap_int (random_range 800 3000 raw)) = 800 + raw mod 2200 /\
  800 <= 800 + raw mod 2200 <= 2999.
Proof.
  pose proof (Z.mod_pos_bound raw 2200 ltac:(lia)) as Hm.
  assert (E : random_range 800 3000 raw = 800 + raw mod 2200).
  { unfold random_range. cbn [Z.geb Z.compare Pos.compare Pos.compare_cont].
    change (3000 - 800) with 2200. lia. }
  rewrite E. split; [|lia].
  rewrite wrap_int_small by lia.
  apply wrap_ulong_small. unfold ULONG_MAX. lia.
Qed.

Lemma waiting_iff (raw t0 e : Z) :
  0 <= e <= ULONG_MAX ->
  waiting raw t0 (t0 + e) <-> e < 800 + raw mod 2200.
Proof.
  intros H. unfold waiting.
  rewrite elapsed_across_rollover by exact H.
  rewrite (proj1 (randomDelay_value raw)). reflexivity.
Qed.

(** ** A scan of the buttons with one button pressed *)

Lemma checkReflexes_single g t c smp p rg lg :
  btn smp (currentTarget g) = true ->
  (forall j, j <> currentTarget g -> btn smp j = false) ->
  let rt := wrap_ulong (wrap_ulong t - startTime g) in
  let rs := if rt >? 1000 then 0 else wrap_int (wrap_ulong (1000 - rt)) in
  exists s',
    checkReflexes (mkSt g (mkWorld (t :: c) (smp :: p) rg lg)) =
      Some (tt, s') /\
    vars s' =
      with_gameState 3
        (with_totalGameScore (wrap_long (totalGameScore g + rs))
           (with_roundScore rs (with_reactionTime rt g))) /\
    clock (env s') = c /\ pins (env s') = p /\ rng (env s') = rg.
Proof.
  intros Hct Hother rt rs.
  assert (Hrange : currentTarget g = 0 \/ currentTarget g = 1 \/
                   currentTarget g = 2).
  { unfold btn in Hct.
    destruct (Z.eqb_spec (currentTarget g) 0); [auto|].
    destruct (Z.eqb_spec (currentTarget g) 1); [auto|].
    destruct (Z.eqb_spec (currentTarget g) 2); [auto|discriminate]. }
  unfold checkReflexes. exec.
  destruct Hrange as [E|[E|E]].
  - rewrite (checkButton_pressed smp 0) by (rewrite <- E; exact Hct).
    rewrite E. cbn [Z.eqb].
    match goal with
    | |- context [processRoundResult true (mkSt ?g1 (mkWorld ?a ?b ?d ?l))] =>
        destruct (processRoundResult_hit g1 a b d l) as (l1 & -> & _)
    end.
    rewrite (checkButton_released smp 1) by (apply Hother; lia).
    exec.
    rewrite (checkButton_released smp 2) by (apply Hother; lia).
    exec. eexists. repeat split.
  - rewrite (checkButton_released smp 0) by (apply Hother; lia).
    exec.
    rewrite (checkButton_pressed smp 1) by (rewrite <- E; exact Hct).
    rewrite E. cbn [Z.eqb Pos.eqb].
    match goal with
    | |- context [processRoundResult true (mkSt ?g1 (mkWorld ?a ?b ?d ?l))] =>
        destruct (processRoundResult_hit g1 a b d l) as (l1 & -> & _)
    end.
    rewrite (checkButton_released smp 2) by (apply Hother; lia).
    exec. eexists. repeat split.
  - rewrite (checkButton_released smp 0) by (apply Hother; lia).
    exec.
    rewrite (checkButton_released smp 1) by (apply Hother; lia).
    exec.
    rewrite (checkButton_pressed smp 2) by (rewrite <- E; exact Hct).
    rewrite E. cbn [Z.eqb Pos.eqb].
    match goal with
    | |- context [processRoundResult true (mkSt ?g1 (mkWorld ?a ?b ?d ?l))] =>
        destruct (processRoundResult_hit g1 a b d l) as (l1 & -> & _)
    end.
    eexists. repeat split.
Qed.

(** ** Computing with a statement of what is returned *)

Lemma returns_ret {A} (a : A) (Q : A -> st -> Prop) s :
  Q a s -> returns (ret a) Q s.
Proof. intros H. exists a, s. split; [reflexivity | exact H]. Qed.

Lemma returns_bind {A B} (m : M A) (k : A -> M B) (Q : B -> st -> Prop) s :
  returns m (fun a s' => returns (k a) Q s') s -> returns (bind m k) Q s.
Proof.
  intros (a & s1 & E & b & s2 & E2 & H).
  exists b, s2. split; [|exact H]. unfold bind. now rewrite E.
Qed.

Lemma returns_get {A} (field : game -> A) (Q : A -> st -> Prop) s :
  Q (field (vars s)) s -> returns (get field) Q s.
Proof. intros H. eexists _, _. split; [reflexivity | exact H]. Qed.

Lemma returns_set upd v (Q : unit -> st -> Prop) s :
  Q tt (mkSt (upd v (vars s)) (env s)) -> returns (set upd v) Q s.
Proof. intros H. eexists _, _. split; [reflexivity | exact H]. Qed.

Lemma returns_emit e (Q : unit -> st -> Prop) s :
  Q tt (mkSt (vars s) (with_log (e :: log (env s)) (env s))) ->
  returns (emit e) Q s.
Proof. intros H. eexists _, _. split; [reflexivity | exact H]. Qed.

Lemma returns_millis (Q : Z -> st -> Prop) g t c p r l :
  Q (wrap_ulong t) (mkSt g (mkWorld c p r (EvMillis :: l))) ->
  returns millis Q (mkSt g (mkWorld (t :: c) p r l)).
Proof. intros H. eexists _, _. split; [reflexivity | exact H]. Qed.

Lemma returns_poll (Q : inputs -> st -> Prop) g c smp p r l :
  Q smp (mkSt g (mkWorld c p r l)) ->
  returns poll Q (mkSt g (mkWorld c (smp :: p) r l)).
Proof. intros H. eexists _, _. split; [reflexivity | exact H]. Qed.

Lemma returns_random lo hi (Q : Z -> st -> Prop) g c p raw r l :
  Q (random_range lo hi raw) (mkSt g (mkWorld c p r (EvRandom :: l))) ->
  returns (random lo hi) Q (mkSt g (mkWorld c p (raw :: r) l)).
Proof. intros H. eexists _, _. split; [reflexivity | exact H]. Qed.

Lemma returns_drawMenu (Q : unit -> st -> Prop) g w :
  (forall l, Q tt (mkSt g (with_log l w))) -> returns drawMenu Q (mkSt g w).
Proof.
  intros H. destruct (drawMenu_returns g w) as [l E].
  eexists _, _. split; [exact E | apply H].
Qed.

Lemma returns_result {A} (m : M A) (Q : A -> st -> Prop) s :
  returns m Q s -> exists a s', m s = Some (a, s') /\ Q a s'.
Proof. exact (fun H => H). Qed.

(** The state of the goal, as a record of its components. *)
Ltac state :=
  cbn [vars env clock pins rng log with_log with_clock with_pins with_rng].

Ltac absurd_branch :=
  solve [ exfalso; bool_facts; cbn [andb orb] in *; bool_facts;
          first [lia | discriminate | congruence] ].

Lemma targets_listed : targets = [0; 1; 2].
Proof. reflexivity. Qed.

Ltac head_of m :=
  lazymatch m with
  | ?f _ => head_of f
  | _ => constr:(m)
  end.

Ltac returns_step :=
  cbv beta; state; fields;
  lazymatch goal with
  | |- returns (bind _ _) _ _ => apply returns_bind
  | |- returns (ret _) _ _ => apply returns_ret
  | |- returns (get _) _ _ => apply returns_get
  | |- returns (set _ _) _ _ => apply returns_set
  | |- returns (emit _) _ _ => apply returns_emit
  | |- returns millis _ _ => apply returns_millis
  | |- returns poll _ _ => apply returns_poll
  | |- returns (random _ _) _ _ => apply returns_random
  | |- returns drawMenu _ _ => apply returns_drawMenu; intros ?
  | |- returns (if ?c then _ else _) _ _ =>
      destruct c eqn:?; try absurd_branch
  | |- returns (forM (_ :: _) _) _ _ => cbn [forM]
  | |- returns (forM [] _) _ _ => cbn [forM]
  | |- returns (forM _ _) _ _ =>
      rewrite ?targets_listed;
      cbn [upto seq map Z.of_nat Pos.of_succ_nat Pos.succ forM]
  | |- returns ?m _ _ =>
      let h := head_of m in unfold h
  end.

Ltac returns_run := repeat returns_step.

(** The leaves of a run of [returns_run]: arithmetic on the variables. *)
Ltac leaf :=
  state; fields; bool_facts;
  repeat match goal with
         | |- context [if ?c then _ else _] => destruct c eqn:?
         end;
  bool_facts; unwrap_int;
  repeat split; intros; try reflexivity; try lia.

(** ** What a pass of [loop()] keeps *)

Ltac wp_step' :=
  cbv beta;
  lazymatch goal with
  | |- wp (bind (random _ _) _) _ _ =>
      apply wp_bind, wp_random; intros ? ? _
  | |- wp _ _ _ => wp_step
  end.

Ltac wp_run' := repeat wp_step'.

Ltac name_target :=
  repeat match goal with
         | |- context [wrap_int (random_range 0 3 ?r)] =>
             let H := fresh "Htarget" in
             let x := fresh "target" in
             pose proof (target_drawn r) as H; cbv zeta in H;
             set (x := wrap_int (random_range 0 3 r)) in *; clearbody x
         end.

Ltac frame_solve :=
  unfold step_ok, allowed; cbn [vars env]; fields; name_target;
  bool_facts;
  repeat match goal with
         | |- _ /\ _ => split
         | |- _ -> _ => intros ?
         end;
  unwrap_int; try reflexivity; try lia.

Lemma step_ok_refl g : gameState g = 2 \/ gameState g = 4 \/
                        gameState g = 5 \/ gameState g < 0 \/
                        5 < gameState g -> step_ok g g.
Proof. intros H. unfold step_ok, allowed. repeat split; lia. Qed.

Lemma frame_handleMenu s :
  gameState (vars s) = 0 ->
  wp handleMenu (fun _ s' => step_ok (vars s) (vars s')) s.
Proof.
  intros H0. unfold handleMenu, startNewGame, showHighScore.
  repeat lazymatch goal with
         | |- wp (bind (when _ _) _) _ _ => fail
         | _ => wp_step
         end.
  apply wp_bind.
  apply wp_conseq with
    (Q := fun _ s' =>
            exists mo tr lnt,
              vars s' =
                with_lastNavTime lnt
                  (with_totalRounds tr (with_menuOption mo (vars s))) /\
              (0 <= menuOption (vars s) <= 2 -> 0 <= mo <= 2)).
  - wp_run.
    all: cbv beta; cbn [vars];
      lazymatch goal with
      | |- exists mo tr lnt, ?g1 = _ /\ _ =>
          exists (menuOption g1), (totalRounds g1), (lastNavTime g1)
      end;
      fields;
      (split; [destruct (vars s); reflexivity|]);
      bool_facts; intros; unwrap_int; lia.
  - cbv beta. intros _ [g1 w1] (mo & tr & lnt & E & Hmo).
    cbn [vars] in E. subst g1.
    wp_run. all: frame_solve.
Qed.

Lemma frame_processRoundResult success s :
  0 <= reactionTime (vars s) <= ULONG_MAX ->
  wp (processRoundResult success)
     (fun _ s' =>
        gameState (vars s') = 3 /\
        -200 <= roundScore (vars s') <= 1000 /\
        totalRounds (vars s') = totalRounds (vars s) /\
        menuOption (vars s') = menuOption (vars s) /\
        lastNavTime (vars s') = lastNavTime (vars s) /\
        currentTarget (vars s') = currentTarget (vars s) /\
        startTime (vars s') = startTime (vars s) /\
        highScore (vars s') = highScore (vars s) /\
        currentRound (vars s') = currentRound (vars s) /\
        reactionTime (vars s') = reactionTime (vars s)) s.
Proof.
  intros Hrt. unfold processRoundResult. wp_run.
  all: cbn [vars]; fields; bool_facts; repeat split; try lia.
  all: rewrite wrap_ulong_small by (unfold ULONG_MAX in *; lia).
  all: rewrite wrap_int_small by lia; lia.
Qed.

Lemma frame_checkButton smp i s :
  2 <= gameState (vars s) <= 3 ->
  wp (checkButton smp i)
     (fun _ s' =>
        2 <= gameState (vars s') <= 3 /\
        (-200 <= roundScore (vars s) <= 1000 ->
         -200 <= roundScore (vars s') <= 1000) /\
        totalRounds (vars s') = totalRounds (vars s) /\
        menuOption (vars s') = menuOption (vars s) /\
        lastNavTime (vars s') = lastNavTime (vars s) /\
        currentTarget (vars s') = currentTarget (vars s) /\
        startTime (vars s') = startTime (vars s) /\
        highScore (vars s') = highScore (vars s) /\
        currentRound (vars s') = currentRound (vars s)) s.
Proof.
  intros Hgs. unfold checkButton.
  apply wp_bind, wp_silent; [apply silent_pressed_btn|].
  intros b [g1 e1] E. cbn in E. subst g1. unfold when.
  destruct b; [|apply wp_ret; cbn [vars]; repeat split; auto; lia].
  apply wp_bind, wp_millis. intros t c _.
  apply wp_bind, wp_get, wp_bind, wp_set, wp_bind, wp_get, wp_bind, wp_emit,
    wp_bind, wp_get.
  cbv beta.
  match goal with
  | |- wp (if ?c then _ else _) _ _ => destruct c
  end;
    (eapply wp_conseq;
     [ apply frame_processRoundResult; cbn [vars]; fields;
       apply wrap_ulong_range
     | cbv beta; cbn [vars]; fields; intros _ s' H;
       repeat split; intros; try tauto; try lia ]).
Qed.

Lemma frame_checkReflexes s :
  gameState (vars s) = 2 ->
  wp checkReflexes (fun _ s' => step_ok (vars s) (vars s')) s.
Proof.
  intros H2. unfold checkReflexes.
  apply wp_bind, wp_poll. intros smp p _.
  rewrite targets_listed. cbn [forM].
  set (g := vars s) in *.
  assert (Hstart :
    2 <= gameState (vars (mkSt g (with_pins p (env s)))) <= 3 /\
    (-200 <= roundScore g <= 1000 ->
     -200 <= roundScore (vars (mkSt g (with_pins p (env s)))) <= 1000) /\
    totalRounds (vars (mkSt g (with_pins p (env s)))) = totalRounds g /\
    menuOption (vars (mkSt g (with_pins p (env s)))) = menuOption g /\
    lastNavTime (vars (mkSt g (with_pins p (env s)))) = lastNavTime g /\
    currentTarget (vars (mkSt g (with_pins p (env s)))) = currentTarget g /\
    startTime (vars (mkSt g (with_pins p (env s)))) = startTime g /\
    highScore (vars (mkSt g (with_pins p (env s)))) = highScore g /\
    currentRound (vars (mkSt g (with_pins p (env s)))) = currentRound g)
    by (cbn [vars]; repeat split; auto; lia).
  generalize dependent (mkSt g (with_pins p (env s))). intros s0 Hs0.
  apply wp_bind. eapply wp_conseq;
    [apply frame_checkButton; tauto|]. cbv beta. intros _ s1 Hs1.
  apply wp_bind. eapply wp_conseq;
    [apply frame_checkButton; tauto|]. cbv beta. intros _ s2 Hs2.
  apply wp_bind. eapply wp_conseq;
    [apply frame_checkButton; tauto|]. cbv beta. intros _ s3 Hs3.
  apply wp_ret.
  unfold step_ok, allowed.
  destruct Hs0 as (? & ? & ? & ? & ? & ? & ? & ? & ?).
  destruct Hs1 as (? & ? & ? & ? & ? & ? & ? & ? & ?).
  destruct Hs2 as (? & ? & ? & ? & ? & ? & ? & ? & ?).
  destruct Hs3 as (? & ? & ? & ? & ? & ? & ? & ? & ?).
  repeat split; intros; try lia; try congruence; auto.
Qed.

Lemma frame_runEnGarde s :
  gameState (vars s) = 1 ->
  wp runEnGarde (fun _ s' => step_ok (vars s) (vars s')) s.
Proof.
  intros H1. unfold runEnGarde.
  wp_run'. apply wp_bind.
  apply wp_whileTiming with
    (Inv := fun s' =>
              vars s' =
                with_totalGameScore (totalGameScore (vars s')) (vars s)).
  - intros s1 Hs1. unfold delayPoll.
    rewrite targets_listed. cbn [forReturn].
    unfold falseStart, cancelGame. wp_run'.
    all: cbn [vars] in *; fields;
      try (rewrite Hs1; destruct (vars s); reflexivity).
    all: rewrite Hs1; frame_solve.
  - cbn [vars]. destruct (vars s); reflexivity.
Qed.

Lemma frame_loop s :
  wp loop (fun _ s' => step_ok (vars s) (vars s')) s.
Proof.
  unfold loop. apply wp_bind, wp_get. cbv beta.
  destruct (gameState (vars s) =? 0) eqn:E0.
  { apply frame_handleMenu. lia. }
  destruct (gameState (vars s) =? 1) eqn:E1.
  { apply frame_runEnGarde. lia. }
  destruct (gameState (vars s) =? 2) eqn:E2.
  { apply frame_checkReflexes. lia. }
  destruct (gameState (vars s) =? 3) eqn:E3.
  { unfold gameOver. wp_run. all: frame_solve. }
  wp_run. all: frame_solve.
Qed.

(** A property of the game variables that every pass keeps is kept by any
    number of passes. *)
Lemma run_keeps (P : game -> Prop) :
  (forall g g', step_ok g g' -> P g -> P g') ->
  forall n s s', P (vars s) -> run n s = Some (tt, s') -> P (vars s').
Proof.
  intros HP n. induction n as [|n IH]; intros s s' Hs E; cbn [run] in E.
  - injection E as <-. exact Hs.
  - unfold bind in E. destruct (loop s) as [[[] s1]|] eqn:E1; [|discriminate].
    apply (IH s1 s'); [|exact E].
    apply (HP (vars s)); [|exact Hs].
    apply (wp_result _ _ _ _ _ (frame_loop s) E1).
Qed.

(** ** The LEDs *)

Lemma wp_and {A} (m : M A) (Q1 Q2 : A -> st -> Prop) s :
  wp m Q1 s -> wp m Q2 s -> wp m (fun a s' => Q1 a s' /\ Q2 a s') s.
Proof.
  unfold wp. destruct (m s) as [[a s']|]; auto.
Qed.

Lemma keepsLeds_ret {A} (a : A) : keepsLeds (ret a).
Proof. intros s. apply wp_ret. reflexivity. Qed.

Lemma keepsLeds_bind {A B} (m : M A) (k : A -> M B) :
  keepsLeds m -> (forall a, keepsLeds (k a)) -> keepsLeds (bind m k).
Proof.
  intros Hm Hk s. apply wp_bind. eapply wp_conseq; [apply Hm|].
  cbv beta. intros a s' E. eapply wp_conseq; [apply Hk|].
  cbv beta. intros b s'' E' i. now rewrite E', E.
Qed.

Lemma keepsLeds_get {A} (field : game -> A) : keepsLeds (get field).
Proof. intros s. apply wp_get. reflexivity. Qed.

Lemma keepsLeds_set upd v : keepsLeds (set upd v).
Proof. intros s. apply wp_set. reflexivity. Qed.

Lemma keepsLeds_emit e :
  (forall i l, led i (e :: l) = led i l) -> keepsLeds (emit e).
Proof. intros H s. apply wp_emit. intros i. apply H. Qed.

Lemma keepsLeds_millis : keepsLeds millis.
Proof. intros s. apply wp_millis. reflexivity. Qed.

Lemma keepsLeds_poll : keepsLeds poll.
Proof. intros s. apply wp_poll. reflexivity. Qed.

Lemma keepsLeds_random lo hi : keepsLeds (random lo hi).
Proof. intros s. apply wp_random. reflexivity. Qed.

Lemma keepsLeds_if {A} (c : bool) (m1 m2 : M A) :
  keepsLeds m1 -> keepsLeds m2 -> keepsLeds (if c then m1 else m2).
Proof. destruct c; auto. Qed.

Lemma keepsLeds_forM l body :
  (forall i, keepsLeds (body i)) -> keepsLeds (forM l body).
Proof.
  intros Hb. induction l as [|i l IH]; cbn [forM].
  - apply keepsLeds_ret.
  - apply keepsLeds_bind; auto.
Qed.

Lemma keepsLeds_forFold {A} l (body : A -> Z -> M A) a :
  (forall a i, keepsLeds (body a i)) -> keepsLeds (forFold l body a).
Proof.
  intros Hb. revert a. induction l as [|i l IH]; intros a; cbn [forFold].
  - apply keepsLeds_ret.
  - apply keepsLeds_bind; auto.
Qed.

Lemma keepsLeds_loopM {R} fuel (body : M (option R)) :
  keepsLeds body -> keepsLeds (loopM fuel body).
Proof.
  intros Hb. induction fuel as [|fuel IH]; cbn [loopM].
  - intros s. exact I.
  - apply keepsLeds_bind; auto. intros [x|]; auto using keepsLeds_ret.
Qed.

Lemma keepsLeds_whilePolling {R} (body : M (option R)) :
  keepsLeds body -> keepsLeds (whilePolling body).
Proof. intros Hb s. apply (keepsLeds_loopM _ _ Hb). Qed.

(** Going through a computation that writes to no LED. *)
Ltac dark :=
  repeat first
    [ progress intros
    | apply keepsLeds_bind | apply keepsLeds_ret | apply keepsLeds_get
    | apply keepsLeds_set | apply keepsLeds_millis | apply keepsLeds_poll
    | apply keepsLeds_random | apply keepsLeds_if | apply keepsLeds_forM
    | apply keepsLeds_forFold | apply keepsLeds_whilePolling
    | apply keepsLeds_loopM
    | apply keepsLeds_emit; reflexivity
    | lazymatch goal with
      | |- keepsLeds ?m => let h := head_of m in unfold h
      end ].

Lemma keepsLeds_drawMenu : keepsLeds drawMenu.
Proof. dark. Qed.

Lemma keepsLeds_handleMenu : keepsLeds handleMenu.
Proof. dark. Qed.

Lemma keepsLeds_processRoundResult success :
  keepsLeds (processRoundResult success).
Proof. dark. Qed.

Lemma keepsLeds_gameOver : keepsLeds gameOver.
Proof. dark. Qed.

Lemma keepsLeds_gate : keepsLeds (whilePolling buttonsReleased).
Proof. dark. Qed.

Lemma keepsLeds_falseStart smp i : keepsLeds (falseStart smp i).
Proof. dark. Qed.

Lemma wp_dark {A} (m : M A) (Q : A -> st -> Prop) s :
  silent m -> keepsLeds m ->
  (forall a s',
     vars s' = vars s ->
     (forall i, led i (log (env s')) = led i (log (env s))) -> Q a s') ->
  wp m Q s.
Proof.
  intros Hs Hk HQ.
  eapply wp_conseq; [apply wp_and; [apply Hs | apply Hk]|].
  cbv beta. intros a s' [E1 E2]. auto.
Qed.

Ltac fields_all :=
  cbn [totalRounds gameState menuOption lastMenuOption currentRound
       startTime reactionTime roundScore totalGameScore highScore
       lastNavTime currentTarget
       with_totalRounds with_gameState with_menuOption with_lastMenuOption
       with_currentRound with_startTime with_reactionTime with_roundScore
       with_totalGameScore with_highScore with_lastNavTime
       with_currentTarget andb orb] in *.

Ltac state_all := cbn [vars env log with_log] in *.

(** Stepping with the writes to the LEDs kept and the other events
    forgotten. *)
Ltac led_step :=
  cbv beta;
  lazymatch goal with
  | |- wp (bind (whileTiming _) _) _ _ => fail
  | |- wp (bind _ _) _ _ => apply wp_bind
  | |- wp (ret _) _ _ => apply wp_ret
  | |- wp (get _) _ _ => apply wp_get
  | |- wp (set _ _) _ _ => apply wp_set
  | |- wp (set_gameState _) _ _ => unfold set_gameState
  | |- wp (digitalWrite_led _ _) _ _ => apply wp_emit
  | |- wp (when _ _) _ _ => unfold when
  | |- wp (if ?c then _ else _) _ _ => destruct c eqn:?
  | |- wp (forM targets _) _ _ => rewrite targets_listed
  | |- wp (forM (upto 3) _) _ _ => change (upto 3) with [0; 1; 2]
  | |- wp (forM _ _) _ _ => cbn [forM]
  | |- wp _ _ _ =>
      apply wp_dark;
      [ solve [silence; auto using silent_drawMenu, silent_pressed_btn,
                 silent_pressed_joySwitch, silent_buttonsReleased]
      | solve [dark]
      | let g := fresh "g" in
        let w := fresh "w" in
        intros ? [g w] ? ?; state_all; subst ]
  end.

Ltac led_run := repeat led_step.

Ltac led_leaf :=
  unfold ledsMatch in *;
  repeat match goal with
         | H : _ /\ _ |- _ => destruct H
         end;
  state_all; fields_all; bool_facts;
  repeat split;
  repeat first
    [ progress cbn [led]
    | match goal with
      | H : forall i, led i _ = _ |- _ => rewrite H
      | H : led _ _ = _ |- _ => rewrite H
      end ];
  repeat match goal with
         | |- context [?a =? ?b] => destruct (Z.eqb_spec a b)
         end;
  cbn [andb orb]; try reflexivity; try lia; try congruence.

Lemma leds_handleMenu s :
  gameState (vars s) = 0 -> ledsMatch s ->
  wp handleMenu (fun _ s' => ledsMatch s') s.
Proof.
  intros H0 Hs.
  eapply wp_conseq;
    [apply wp_and; [apply (frame_handleMenu s H0) | apply keepsLeds_handleMenu]|].
  cbv beta. intros _ s' [[Hgo _] Hl]. unfold allowed in Hgo.
  led_leaf.
Qed.

Lemma leds_checkButton smp i s :
  2 <= gameState (vars s) <= 3 -> ledsMatch s ->
  wp (checkButton smp i)
     (fun _ s' => 2 <= gameState (vars s') <= 3 /\ ledsMatch s') s.
Proof.
  intros Hgs Hs. unfold checkButton.
  repeat lazymatch goal with
         | |- wp (if _ =? _ then _ else _) _ _ => fail
         | _ => led_step
         end.
  2: { led_leaf. }
  match goal with
  | |- wp (if ?c then _ else _) _ _ => destruct c
  end.
  all: eapply wp_conseq;
    [ apply wp_and;
      [ apply frame_processRoundResult; state_all; fields;
        apply wrap_ulong_range
      | apply keepsLeds_processRoundResult ]
    | cbv beta; intros _ s' [(Hgs' & _ & _ & _ & _ & Hct & _) Hl];
      state_all; fields_all ].
  all: led_leaf.
Qed.

Lemma leds_checkReflexes s :
  gameState (vars s) = 2 -> ledsMatch s ->
  wp checkReflexes (fun _ s' => ledsMatch s') s.
Proof.
  intros H2 Hs. unfold checkReflexes.
  apply wp_bind, wp_poll. intros smp p _.
  rewrite targets_listed. cbn [forM].
  assert (Hstart :
    2 <= gameState (vars (mkSt (vars s) (with_pins p (env s)))) <= 3 /\
    ledsMatch (mkSt (vars s) (with_pins p (env s)))).
  { split; [cbn [vars]; lia | exact Hs]. }
  generalize dependent (mkSt (vars s) (with_pins p (env s))).
  intros s0 [Hgs0 Hs0].
  apply wp_bind. eapply wp_conseq;
    [apply leds_checkButton; assumption|]. cbv beta. intros _ s1 [Hgs1 Hs1].
  apply wp_bind. eapply wp_conseq;
    [apply leds_checkButton; assumption|]. cbv beta. intros _ s2 [Hgs2 Hs2].
  apply wp_bind. eapply wp_conseq;
    [apply leds_checkButton; assumption|]. cbv beta. intros _ s3 [Hgs3 Hs3].
  apply wp_ret. exact Hs3.
Qed.

Lemma leds_runEnGarde s :
  gameState (vars s) = 1 ->
  wp runEnGarde (fun _ s' => ledsMatch s') s.
Proof.
  intros H1. unfold runEnGarde.
  led_run. apply wp_bind.
  apply wp_whileTiming with
    (Inv := fun s' =>
              gameState (vars s') <> 2 /\
              led 0 (log (env s')) = false /\
              led 1 (log (env s')) = false /\
              led 2 (log (env s')) = false).
  - intros s1 Hs1. unfold delayPoll.
    rewrite targets_listed. cbn [forReturn].
    unfold falseStart, cancelGame. led_run.
    all: led_leaf.
  - led_leaf.
Qed.

Lemma leds_loop s :
  ledsMatch s -> wp loop (fun _ s' => ledsMatch s') s.
Proof.
  intros Hs. unfold loop. apply wp_bind, wp_get. cbv beta.
  destruct (gameState (vars s) =? 0) eqn:E0.
  { apply leds_handleMenu; [lia | exact Hs]. }
  destruct (gameState (vars s) =? 1) eqn:E1.
  { apply leds_runEnGarde. lia. }
  destruct (gameState (vars s) =? 2) eqn:E2.
  { apply leds_checkReflexes; [lia | exact Hs]. }
  destruct (gameState (vars s) =? 3) eqn:E3.
  { unfold gameOver. led_run. all: led_leaf. }
  led_run. all: led_leaf.
Qed.

Lemma leds_run n :
  forall s s', ledsMatch s -> run n s = Some (tt, s') -> ledsMatch s'.
Proof.
  induction n as [|n IH]; intros s s' Hs E; cbn [run] in E.
  - injection E as <-. exact Hs.
  - unfold bind in E. destruct (loop s) as [[[] s1]|] eqn:E1; [|discriminate].
    apply (IH s1 s'); [|exact E].
    apply (wp_result _ _ _ _ _ (leds_loop s Hs) E1).
Qed.

(** * Properties of the game *)

(** The hypotheses of a statement, on an example. *)
Ltac on_example :=
  first [ reflexivity
        | solve [repeat constructor]
        | solve [repeat (constructor; try (vm_compute; reflexivity))]
        | vm_compute; intuition discriminate ].

(** What a press of the target button leaves in [reactionTime] and
    [roundScore], whenever [checkButton] returns. *)
Lemma hit_result smp i s s' :
  btn smp i = true -> i = currentTarget (vars s) ->
  checkButton smp i s = Some (tt, s') ->
  0 <= reactionTime (vars s') /\
  roundScore (vars s') =
    (if reactionTime (vars s') >? 1000 then 0
     else 1000 - reactionTime (vars s')).
Proof.
  intros Hb Hi E. destruct s as [g [ck ps rg lg]].
  destruct ck as [|t c].
  { revert E. unfold checkButton. exec. rewrite Hb. discriminate. }
  rewrite (checkButton_pressed _ _ _ _ _ _ _ _ Hb) in E.
  cbn [vars] in Hi. rewrite Hi, Z.eqb_refl in E.
  match type of E with
  | processRoundResult true (mkSt ?g1 (mkWorld ?a ?b ?c ?d)) = _ =>
      destruct (processRoundResult_hit g1 a b c d) as (l & El & _)
  end.
  rewrite El in E.
  apply (f_equal (fun r => match r with Some (_, x) => x | None => s' end))
    in E.
  subst s'.
  cbn [vars roundScore reactionTime with_gameState with_totalGameScore
       with_roundScore with_reactionTime].
  pose proof (wrap_ulong_range (wrap_ulong t - startTime g)) as Hr.
  split; [lia|].
  destruct (Z.gtb_spec (wrap_ulong (wrap_ulong t - startTime g)) 1000);
    [reflexivity|].
  rewrite (wrap_ulong_small (1000 - _)) by (unfold ULONG_MAX; lia).
  apply wrap_int_small. lia.
Qed.

(** C1: a press of the target button in the action state (button [i] is
    pressed in the sample and [i] is [currentTarget]) is processed, with the
    reaction time [millis() - startTime]; the round score is [1000 -
    reactionTime] when the reaction time is at most 1000 ms and 0 when it is
    more; so it is never negative, and any other hit with a reaction time at
    least as long scores at most as much. *)
Theorem hit_score_linear_then_zero (smp : inputs) (i : Z) (s : st)
    (t : Z) (c : list Z) :
  btn smp i = true ->
  i = currentTarget (vars s) ->
  clock (env s) = t :: c ->
  exists s',
    checkButton smp i s = Some (tt, s') /\
    reactionTime (vars s') = wrap_ulong (wrap_ulong t - startTime (vars s)) /\
    (reactionTime (vars s') <= 1000 ->
     roundScore (vars s') = 1000 - reactionTime (vars s')) /\
    (reactionTime (vars s') > 1000 -> roundScore (vars s') = 0) /\
    0 <= roundScore (vars s') /\
    (forall smp2 i2 s2 s2',
       btn smp2 i2 = true -> i2 = currentTarget (vars s2) ->
       checkButton smp2 i2 s2 = Some (tt, s2') ->
       reactionTime (vars s') <= reactionTime (vars s2') ->
       roundScore (vars s2') <= roundScore (vars s')).
Proof.
  intros Hb Hi Hc.
  assert (E : exists s', checkButton smp i s = Some (tt, s') /\
      reactionTime (vars s') = wrap_ulong (wrap_ulong t - startTime (vars s))).
  { destruct s as [g [ck ps rg lg]]. cbn in Hc, Hi. subst ck.
    rewrite (checkButton_pressed _ _ _ _ _ _ _ _ Hb).
    rewrite Hi, Z.eqb_refl.
    match goal with
    | |- exists _, processRoundResult true (mkSt ?g1 (mkWorld ?a ?b ?c ?d))
                   = _ /\ _ =>
        destruct (processRoundResult_hit g1 a b c d) as (l & El & _)
    end.
    eexists. split; [exact El | reflexivity]. }
  destruct E as (s' & E & Ert). exists s'.
  destruct (hit_result smp i s s' Hb Hi E) as [Hpos Hrs].
  split; [exact E|]. split; [exact Ert|].
  destruct (Z.gtb_spec (reactionTime (vars s')) 1000) as [Hgt|Hle].
  - repeat split; try lia.
    intros smp2 i2 s2 s2' Hb2 Hi2 E2 Hle2.
    destruct (hit_result smp2 i2 s2 s2' Hb2 Hi2 E2) as [_ Hrs2].
    destruct (Z.gtb_spec (reactionTime (vars s2')) 1000); lia.
  - repeat split; try lia.
    intros smp2 i2 s2 s2' Hb2 Hi2 E2 Hle2.
    destruct (hit_result smp2 i2 s2 s2' Hb2 Hi2 E2) as [_ Hrs2].
    destruct (Z.gtb_spec (reactionTime (vars s2')) 1000); lia.
Qed.

Lemma hit_score_linear_then_zero_witness :
  exists s',
    checkButton pressLeft 0 (mkSt leftLit (mkWorld [250] [] [] [])) =
      Some (tt, s') /\
    reactionTime (vars s') = 150 /\ roundScore (vars s') = 850.
Proof.
  destruct (hit_score_linear_then_zero pressLeft 0
              (mkSt leftLit (mkWorld [250] [] [] [])) 250 [])
    as (s' & E & Ert & Hlin & _); [reflexivity | reflexivity | reflexivity |].
  exists s'. split; [exact E|].
  assert (R : reactionTime (vars s') = 150) by (rewrite Ert; reflexivity).
  split; [exact R|]. rewrite Hlin; rewrite R; [reflexivity | lia].
Defined.

(** C6: a press of a button that is not the target, in the action state
    (button [i] is pressed in the sample and [i] differs from
    [currentTarget]), is processed with the round score -200, whatever the
    clock reading, hence whatever the reaction time. *)
Theorem miss_score_fixed (smp : inputs) (i : Z) (s : st)
    (t : Z) (c : list Z) :
  btn smp i = true ->
  i <> currentTarget (vars s) ->
  clock (env s) = t :: c ->
  exists s',
    checkButton smp i s = Some (tt, s') /\
    reactionTime (vars s') = wrap_ulong (wrap_ulong t - startTime (vars s)) /\
    roundScore (vars s') = -200 /\
    totalGameScore (vars s') = wrap_long (totalGameScore (vars s) + -200) /\
    gameState (vars s') = 3.
Proof.
  intros Hb Hi Hc.
  destruct s as [g [ck ps rg lg]]. cbn in Hc, Hi. subst ck.
  rewrite (checkButton_pressed _ _ _ _ _ _ _ _ Hb).
  apply Z.eqb_neq in Hi. rewrite Hi.
  match goal with
  | |- exists _, processRoundResult false (mkSt ?g1 (mkWorld ?a ?b ?c ?d))
                 = _ /\ _ =>
      destruct (processRoundResult_miss g1 a b c d) as (l & El & _)
  end.
  eexists. split; [exact El|]. cbn. auto.
Qed.

Lemma miss_score_fixed_witness :
  exists s',
    checkButton pressCenter 1 (mkSt leftLit (mkWorld [250] [] [] [])) =
      Some (tt, s') /\
    roundScore (vars s') = -200.
Proof.
  destruct (miss_score_fixed pressCenter 1
              (mkSt leftLit (mkWorld [250] [] [] [])) 250 [])
    as (s' & E & _ & Hrs & _);
    [reflexivity | discriminate | reflexivity |].
  exists s'. split; [exact E | exact Hrs].
Defined.

(** C2: with the left target lit and the left and center buttons both
    pressed in the same sample, [checkReflexes] processes both presses: the
    left one as a hit at 150 ms (850 points) and then the center one as a
    miss at 240 ms (-200), so that 650 is added to the total, the round
    score is left at -200 and [gameState] is assigned twice. *)
Theorem checkReflexes_double_press :
  exists s',
    checkReflexes (mkSt leftLit (mkWorld [250; 340] [pressLeftCenter] [] []))
      = Some (tt, s') /\
    totalGameScore (vars s') = 650 /\
    roundScore (vars s') = -200 /\
    reactionTime (vars s') = 240 /\
    filter isStateWrite (log (env s')) = [EvState 3; EvState 3] /\
    In (EvLcdPrint "TOP! ") (log (env s')) /\
    In (EvLcdPrint "ERRADO!") (log (env s')).
Proof.
  eexists. split; [vm_compute; reflexivity|].
  cbn. intuition.
Qed.

(** C3 as stated fails: 3000 is not a possible draw. *)
Lemma delay_3000_is_never_drawn :
  ~ (forall d, 800 <= d <= 3000 ->
       exists s s' r, random 800 3000 s = Some (r, s') /\ wrap_int r = d).
Proof.
  intros H. destruct (H 3000 ltac:(lia)) as (s & s' & r & E & Hr).
  unfold random in E. destruct (rng (env s)) as [|raw rest]; [discriminate|].
  injection E as <- _.
  pose proof (random_range_bounds 800 3000 raw ltac:(lia)) as Hb.
  rewrite wrap_int_small in Hr by lia. lia.
Qed.

(** C3, amended: the delay [randomDelay] that [runEnGarde] draws with
    [random(800, 3000)] can be every integer from 800 through 2999 and
    nothing else; [random] excludes its upper bound. *)
Theorem delay_drawn_from_800_to_2999 (d : Z) :
  (exists s s' r, random 800 3000 s = Some (r, s') /\ wrap_int r = d) <->
  800 <= d <= 2999.
Proof.
  split.
  - intros (s & s' & r & E & Hr).
    unfold random in E. destruct (rng (env s)) as [|raw rest]; [discriminate|].
    injection E as <- _.
    pose proof (random_range_bounds 800 3000 raw ltac:(lia)) as Hb.
    rewrite wrap_int_small in Hr by lia. lia.
  - intros Hd.
    exists (mkSt power_on (mkWorld [] [] [d - 800] [])).
    eexists. exists d. split.
    + unfold random. cbn [env rng]. rewrite random_range_hits by lia.
      reflexivity.
    + apply wrap_int_small. lia.
Qed.

Lemma delay_drawn_from_800_to_2999_witness :
  exists s s' r, random 800 3000 s = Some (r, s') /\ wrap_int r = 2999.
Proof.
  apply (proj2 (delay_drawn_from_800_to_2999 2999)). lia.
Defined.

(** C5: over any passes of [loop()], whatever the inputs, [highScore] does
    not decrease; and [gameOver], called from the state reached, sets
    [highScore] to [totalGameScore] and plays the record fanfare when
    [totalGameScore > highScore], and otherwise leaves [highScore] as it is
    and plays the closing tone. *)
Theorem highScore_never_decreases (n : nat) (s s' : st) :
  run n s = Some (tt, s') ->
  highScore (vars s) <= highScore (vars s') /\
  exists s'',
    gameOver s' = Some (tt, s'') /\
    highScore (vars s') <= highScore (vars s'') /\
    (if totalGameScore (vars s') >? highScore (vars s')
     then highScore (vars s'') = totalGameScore (vars s') /\
          log (env s'') =
            recordEvents (totalGameScore (vars s'))
              ++ EvLcdClear :: EvState 4 :: log (env s')
     else highScore (vars s'') = highScore (vars s') /\
          log (env s'') =
            closingEvents (totalGameScore (vars s'))
              ++ EvLcdClear :: EvState 4 :: log (env s')).
Proof.
  intros E. split.
  - pose proof (wp_result _ _ _ _ _
                  (inv_run False False (highScore (vars s)) n s
                     ltac:(unfold inv; intuition lia)) E) as (_ & H2 & _).
    exact H2.
  - destruct s' as [g w]. rewrite gameOver_eq. eexists. split; [reflexivity|].
    cbn [vars env].
    destruct (Z.gtb_spec (totalGameScore g) (highScore g));
      cbn [vars env log with_log]; fields; repeat split; lia.
Qed.

(** C7: starting with [totalRounds] within 1..99, it is within 1..99 after
    any passes of [loop()], whatever the inputs; and a pass of the menu on
    the rounds row then adds one for the joystick pushed right, up to 99 and
    no further, and takes one off for the joystick pushed left, down to 1
    and no further. *)
Theorem totalRounds_stays_clamped (n : nat) (s s' : st) :
  1 <= totalRounds (vars s) <= 99 ->
  run n s = Some (tt, s') ->
  1 <= totalRounds (vars s') <= 99 /\
  forall smp p t t' c,
    pins (env s') = smp :: p ->
    clock (env s') = t :: t' :: c ->
    menuOption (vars s') = 1 ->
    100 <= joyY smp <= 900 ->
    200 < wrap_ulong (wrap_ulong t - lastNavTime (vars s')) ->
    exists s'',
      handleMenu s' = Some (tt, s'') /\
      1 <= totalRounds (vars s'') <= 99 /\
      totalRounds (vars s'') =
        (if joyX smp >? 900 then Z.min 99 (totalRounds (vars s') + 1)
         else if joyX smp <? 100 then Z.max 1 (totalRounds (vars s') - 1)
         else totalRounds (vars s')).
Proof.
  intros Hr E.
  assert (Hr' : 1 <= totalRounds (vars s') <= 99).
  { pose proof (wp_result _ _ _ _ _
                  (inv_run True False (highScore (vars s)) n s
                     ltac:(unfold inv; intuition lia)) E) as (H1 & _).
    cbv beta in H1. apply H1. exact I. }
  split; [exact Hr'|].
  intros smp p t t' c Hp Hc Hmo Hy Hnav.
  destruct s' as [g [ck ps rg lg]]. cbn [vars env pins clock] in *. subst.
  destruct (handleMenu_adjusts g smp p t t' c rg lg Hmo Hy Hnav Hr')
    as (s'' & E'' & Ht).
  exists s''. split; [exact E''|]. split; [|exact Ht].
  rewrite Ht.
  destruct (joyX smp >? 900); [lia|]. destruct (joyX smp <? 100); lia.
Qed.

Lemma highScore_never_decreases_witness :
  exists s',
    run 14 (mkSt power_on staleRound) = Some (tt, s') /\
    highScore power_on <= highScore (vars s').
Proof.
  assert (E : exists s', run 14 (mkSt power_on staleRound) = Some (tt, s'))
    by (eexists; vm_compute; reflexivity).
  destruct E as [s' E]. exists s'. split; [exact E|].
  exact (proj1 (highScore_never_decreases 14 _ _ E)).
Defined.

Lemma totalRounds_stays_clamped_witness :
  exists s',
    run 14 (mkSt power_on staleRound) = Some (tt, s') /\
    1 <= totalRounds (vars s') <= 99.
Proof.
  assert (E : exists s', run 14 (mkSt power_on staleRound) = Some (tt, s'))
    by (eexists; vm_compute; reflexivity).
  destruct E as [s' E]. exists s'. split; [exact E|].
  apply (totalRounds_stays_clamped 14 (mkSt power_on staleRound) s');
    [cbn; lia | exact E].
Defined.

(** C8 as stated fails: after the session [staleRound] the sketch is in the
    menu with [currentRound = 2] and [totalRounds = 1]. *)
Lemma round_counter_exceeds_totalRounds_in_menu :
  ~ (forall g, reachable g -> currentRound g <= totalRounds g).
Proof.
  intros H.
  assert (E : exists s',
            run 14 (mkSt power_on staleRound) = Some (tt, s') /\
            totalRounds (vars s') < currentRound (vars s'))
    by (eexists; split; vm_compute; reflexivity).
  destruct E as ([g w'] & E & Hlt). cbn [vars] in Hlt.
  specialize (H g (ex_intro _ 14%nat (ex_intro _ staleRound
                                       (ex_intro _ w' E)))).
  lia.
Qed.

(** C8, amended: in every reachable state in which a game is on or just
    over (states 1 to 4) the round counter is within 1..totalRounds; in the
    result state a pass of [loop()] adds one to the counter and goes back to
    the preparation state when [currentRound < totalRounds], and otherwise
    leaves the counter and goes to the game-over state; from there a pass
    changes nothing until the switch or the center button is pressed, and
    then goes to the menu. *)
Theorem round_counter_within_totalRounds (g : game) :
  reachable g ->
  (1 <= gameState g <= 4 -> 1 <= currentRound g <= totalRounds g) /\
  (gameState g = 3 ->
   forall w, exists s',
     loop (mkSt g w) = Some (tt, s') /\
     totalRounds (vars s') = totalRounds g /\
     if currentRound g <? totalRounds g
     then currentRound (vars s') = currentRound g + 1 /\
          gameState (vars s') = 1
     else currentRound (vars s') = currentRound g /\
          gameState (vars s') = 4) /\
  (gameState g = 4 ->
   forall ck smp p rg lg, exists s',
     loop (mkSt g (mkWorld ck (smp :: p) rg lg)) = Some (tt, s') /\
     currentRound (vars s') = currentRound g /\
     if joySwitch smp || btnCenter smp
     then gameState (vars s') = 0
     else vars s' = g).
Proof.
  intros Hg. destruct (inv_reachable g Hg) as (_ & _ & Hc).
  destruct (Hc I) as [Hr Hcr]. clear Hc.
  split; [exact Hcr|]. split.
  - intros H3 w. rewrite (loop_result g w H3).
    destruct (Z.ltb_spec (currentRound g) (totalRounds g)) as [Hlt|Hge].
    + eexists. split; [reflexivity|]. cbn [vars]. fields.
      rewrite wrap_int_small by lia. auto.
    + rewrite gameOver_eq. eexists. split; [reflexivity|].
      destruct (totalGameScore g >? highScore g); cbn [vars]; fields; auto.
  - intros H4 ck smp p rg lg.
    destruct (loop_over g ck smp p rg lg (or_introl H4)) as (s' & E & Hv).
    exists s'. split; [exact E|]. rewrite Hv.
    destruct (joySwitch smp || btnCenter smp); fields; auto.
Qed.

Lemma round_counter_within_totalRounds_witness :
  exists g,
    reachable g /\ gameState g = 3 /\
    1 <= currentRound g <= totalRounds g.
Proof.
  assert (E : exists s',
            run 3 (mkSt power_on staleRound) = Some (tt, s') /\
            gameState (vars s') = 3)
    by (eexists; split; vm_compute; reflexivity).
  destruct E as ([g w'] & E & H3). cbn [vars] in H3.
  assert (Hg : reachable g)
    by exact (ex_intro _ 3%nat (ex_intro _ staleRound (ex_intro _ w' E))).
  exists g. split; [exact Hg|]. split; [exact H3|].
  apply (proj1 (round_counter_within_totalRounds g Hg)). lia.
Defined.

(** C4: a false start in the preparation state.  The buttons are released
    after the polls [busy]; the delay loop goes round on the quiet polls
    [qs]; then, the delay still running, a poll [fs] sees a target button
    pressed.  The pass of [loop()] returns with 500 subtracted from
    [totalGameScore] (in [long] arithmetic, that is exactly 500 as long as
    the result is a [long]), with [currentRound] as it was and still in the
    preparation state, so that the next pass runs the same round again. *)
Theorem false_start_costs_500 (s : st) (busy : list inputs) (free : inputs)
    (qs : list inputs) (fs : inputs) (p : list inputs) (raw : Z)
    (r : list Z) (t0 : Z) (ts : list Z) (t : Z) (c : list Z) :
  gameState (vars s) = 1 ->
  pins (env s) = busy ++ free :: qs ++ fs :: p ->
  rng (env s) = raw :: r ->
  clock (env s) = t0 :: ts ++ t :: c ->
  Forall (fun smp => anyTarget smp = true) busy ->
  anyTarget free = false ->
  Forall quiet qs ->
  List.length ts = List.length qs ->
  Forall (waiting raw t0) ts ->
  waiting raw t0 t ->
  anyTarget fs = true ->
  exists s',
    loop s = Some (tt, s') /\
    totalGameScore (vars s') = wrap_long (totalGameScore (vars s) - 500) /\
    (LONG_MIN + 500 <= totalGameScore (vars s) <= LONG_MAX ->
     totalGameScore (vars s') = totalGameScore (vars s) - 500) /\
    currentRound (vars s') = currentRound (vars s) /\
    gameState (vars s') = 1 /\
    loop s' = runEnGarde s'.
Proof.
  intros Hgs Hp Hr Hc Hbusy Hfree Hqs Hlen Hts Ht Hfs.
  rewrite (loop_enGarde s Hgs).
  destruct s as [g [ck ps rg lg]]. cbn [vars env pins rng clock] in *. subst.
  destruct (runEnGarde_false_start g busy free qs fs p raw r t0 ts t c lg
              Hbusy Hfree Hqs Hfs Hlen Hts Ht) as [l E].
  eexists. split; [exact E|]. cbn [vars]. fields.
  repeat split; auto.
  - intros H. apply wrap_long_small. unfold LONG_MIN, LONG_MAX in *. lia.
  - apply loop_enGarde. cbn [vars]. fields. exact Hgs.
Qed.

Lemma false_start_costs_500_witness :
  exists s',
    loop (mkSt enGarde falseStartWorld) = Some (tt, s') /\
    totalGameScore (vars s') = -500 /\
    currentRound (vars s') = 1 /\
    gameState (vars s') = 1.
Proof.
  destruct (false_start_costs_500 (mkSt enGarde falseStartWorld)
              [pressLeft] idle [idle] pressLeftSwitch [] 0 [] 0 [100] 200 [])
    as (s' & E & _ & Hexact & Hcr & Hgs & _); [on_example .. |].
  exists s'. split; [exact E|].
  split; [apply Hexact; vm_compute; split; discriminate|].
  split; [exact Hcr | exact Hgs].
Defined.

(** C10: in a round of the delay loop the target buttons are read before
    the joystick switch.  With the polls as in C4, and the poll [fs] seeing
    a target button and the switch both pressed, the pass of [loop()]
    returns with the penalty of 500 and nothing else changed in the game
    variables: [gameState] is still 1, where [cancelGame] would have set 0.
    Its last round read the clock and the buttons up to the first one
    pressed, and then played and showed the penalty; the switch was not
    read. *)
Theorem false_start_checked_before_cancel (s : st) (busy : list inputs)
    (free : inputs) (qs : list inputs) (fs : inputs) (p : list inputs)
    (raw : Z) (r : list Z) (t0 : Z) (ts : list Z) (t : Z) (c : list Z) :
  gameState (vars s) = 1 ->
  pins (env s) = busy ++ free :: qs ++ fs :: p ->
  rng (env s) = raw :: r ->
  clock (env s) = t0 :: ts ++ t :: c ->
  Forall (fun smp => anyTarget smp = true) busy ->
  anyTarget free = false ->
  Forall quiet qs ->
  List.length ts = List.length qs ->
  Forall (waiting raw t0) ts ->
  waiting raw t0 t ->
  anyTarget fs = true ->
  joySwitch fs = true ->
  exists s' l,
    loop s = Some (tt, s') /\
    vars s' =
      with_totalGameScore (wrap_long (totalGameScore (vars s) - 500))
        (vars s) /\
    gameState (vars s') = 1 /\
    log (env s') =
      EvDelay 1500 :: EvLcdPrint "  FALTA! -500   " :: EvLcdSetCursor 0 1
      :: EvTone 100 400 :: readsUpTo (firstPressed fs) ++ EvMillis :: l /\
    ~ In EvReadSwitch (readsUpTo (firstPressed fs)).
Proof.
  intros Hgs Hp Hr Hc Hbusy Hfree Hqs Hlen Hts Ht Hfs _.
  rewrite (loop_enGarde s Hgs).
  destruct s as [g [ck ps rg lg]]. cbn [vars env pins rng clock] in *. subst.
  destruct (runEnGarde_false_start g busy free qs fs p raw r t0 ts t c lg
              Hbusy Hfree Hqs Hfs Hlen Hts Ht) as [l E].
  eexists. exists l. split; [exact E|]. cbn [vars env log]. fields.
  repeat split; auto.
  unfold firstPressed.
  destruct (btnLeft fs); [|destruct (btnCenter fs)];
    vm_compute; intuition discriminate.
Qed.

Lemma false_start_checked_before_cancel_witness :
  exists s',
    loop (mkSt enGarde falseStartWorld) = Some (tt, s') /\
    gameState (vars s') = 1 /\ totalGameScore (vars s') = -500.
Proof.
  destruct (false_start_checked_before_cancel (mkSt enGarde falseStartWorld)
              [pressLeft] idle [idle] pressLeftSwitch [] 0 [] 0 [100] 200 [])
    as (s' & l & E & Hv & Hgs & _); [on_example .. |].
  exists s'. split; [exact E|]. split; [exact Hgs|].
  rewrite Hv. reflexivity.
Defined.

(** ** Two sessions of the specification *)

(** One round, the target hit after 150 ms: 850 points, a new record, and
    the states 1, 2, 3 and 4 in this order. *)
Example one_round_game :
  exists s',
    run 4 (mkSt (with_totalRounds 1 power_on) oneRound) = Some (tt, s') /\
    roundScore (vars s') = 850 /\
    totalGameScore (vars s') = 850 /\
    highScore (vars s') = 850 /\
    rev (filter isStateWrite (log (env s'))) =
      [EvState 1; EvState 2; EvState 3; EvState 4].
Proof.
  eexists. split; [vm_compute; reflexivity|].
  repeat split.
Qed.

(** The joystick switch pressed during the delay, no button pressed: the
    game is cancelled, the score is left as it was. *)
Example cancel_during_delay :
  exists s',
    loop (mkSt enGarde (mkWorld [0; 100] [idle; pressSwitch] [0] [])) =
      Some (tt, s') /\
    gameState (vars s') = 0 /\
    totalGameScore (vars s') = totalGameScore enGarde /\
    In (EvLcdPrint "CANCELADO") (log (env s')).
Proof.
  eexists. split; [vm_compute; reflexivity|].
  cbn. intuition.
Qed.

(** ** The order of inputs, outputs and the state variable *)

(** C9 as stated fails: the pass of [loop()] that lights the target in the
    session [goWorld] draws the screen before it polls the buttons, and
    assigns [gameState] before it shows the target, lights the LED and plays
    the go tone. *)
Lemma state_assigned_before_go_outputs :
  ~ (forall s s',
       log (env s) = [] -> loop s = Some (tt, s') ->
       inputsFirst (log (env s')) = true /\
       outputsBeforeState (log (env s')) = true).
Proof.
  intros H.
  assert (E : exists s',
            loop (mkSt enGarde goWorld) = Some (tt, s') /\
            gameState (vars s') = 2 /\
            inputsFirst (log (env s')) = false /\
            outputsBeforeState (log (env s')) = false)
    by (eexists; split; [|split; [|split]]; vm_compute; reflexivity).
  destruct E as (s' & E & _ & _ & Hout).
  destruct (H (mkSt enGarde goWorld) s' eq_refl E) as [_ Hout']. congruence.
Qed.

(** C9, amended: the two transitions of a round assign [gameState] at
    opposite ends.  [processRoundResult] makes all its outputs (tone,
    display) and assigns [gameState = 3] last.  The pass of [loop()] that
    ends the preparation phase draws the screen [enGardeScreen], then polls
    the buttons and the clock ([l]), and when the delay is over assigns
    [gameState = 2] first and then shows the target, lights its LED and
    plays the go tone, all before it returns: so between two passes the
    action state is never seen without the target LED lit. *)
Theorem state_assigned_last_in_result_first_in_go (success : bool) (s : st)
    (g : game) (busy : list inputs) (free : inputs) (qs p : list inputs)
    (raw raw2 : Z) (r : list Z) (t0 : Z) (ts : list Z) (t t1 : Z)
    (c : list Z) (lg : list event) :
  gameState g = 1 ->
  Forall (fun smp => anyTarget smp = true) busy ->
  anyTarget free = false ->
  Forall quiet qs ->
  List.length ts = List.length qs ->
  Forall (waiting raw t0) ts ->
  ~ waiting raw t0 t ->
  (exists s' l,
     processRoundResult success s = Some (tt, s') /\
     gameState (vars s') = 3 /\
     log (env s') = EvState 3 :: l ++ log (env s) /\
     forall v, ~ In (EvState v) l) /\
  (exists s' l,
     loop (mkSt g (mkWorld (t0 :: ts ++ t :: t1 :: c)
                     (busy ++ free :: qs ++ p) (raw :: raw2 :: r) lg)) =
       Some (tt, s') /\
     gameState (vars s') = 2 /\
     0 <= currentTarget (vars s') <= 2 /\
     log (env s') =
       EvMillis :: EvTone 1500 150 :: EvLed (currentTarget (vars s')) true
       :: EvLcdPrint (goText (currentTarget (vars s')))
       :: EvLcdSetCursor 0 1 :: EvRandom :: EvState 2 :: EvMillis
       :: l ++ enGardeScreen g ++ lg).
Proof.
  intros Hgs Hbusy Hfree Hqs Hlen Hts Ht. split.
  - destruct s as [g0 [ck ps rg lg0]]. destruct success.
    + destruct (processRoundResult_hit g0 ck ps rg lg0) as (l & E & Hl).
      eexists. exists l. split; [exact E|]. cbn [vars env log]. fields. auto.
    + destruct (processRoundResult_miss g0 ck ps rg lg0) as (l & E & Hl).
      eexists. exists l. split; [exact E|]. cbn [vars env log]. fields. auto.
  - rewrite loop_enGarde by exact Hgs.
    destruct (runEnGarde_go g busy free qs p raw raw2 r t0 ts t t1 c lg
                Hbusy Hfree Hqs Hlen Hts Ht) as [l E].
    eexists. exists l. split; [exact E|]. cbn [vars env log]. fields.
    repeat split; try reflexivity;
      destruct (target_drawn raw2) as [E'|[E'|E']]; cbv zeta in E'; lia.
Qed.

Lemma state_assigned_last_in_result_first_in_go_witness :
  exists s',
    loop (mkSt enGarde goWorld) = Some (tt, s') /\
    gameState (vars s') = 2 /\
    0 <= currentTarget (vars s') <= 2.
Proof.
  destruct (state_assigned_last_in_result_first_in_go true
              (mkSt leftLit (mkWorld [] [] [] []))
              enGarde [] idle [idle] [] 0 0 [] 0 [100] 800 801 [] [])
    as (_ & s' & l & E & Hgs & Hct & _); [on_example .. |].
  exists s'. split; [exact E|]. split; [exact Hgs | exact Hct].
Defined.

(** * More properties of the sketch *)

(** ** The preparation phase and the round *)



(** X2: cancelling a game.  In the preparation state, once the buttons are
    released and after any number of quiet polls, a poll of the running
    delay that sees the joystick switch pressed and no target button makes
    the pass of [loop()] return in the menu state, with [lastMenuOption]
    set to -1 and every other game variable as it was: the score, the
    round counter and the record are untouched. *)
Theorem cancel_returns_to_menu (s : st) (busy : list inputs) (free : inputs)
    (qs : list inputs) (sw : inputs) (p : list inputs) (raw : Z)
    (r : list Z) (t0 : Z) (ts : list Z) (t : Z) (c : list Z) :
  gameState (vars s) = 1 ->
  pins (env s) = busy ++ free :: qs ++ sw :: p ->
  rng (env s) = raw :: r ->
  clock (env s) = t0 :: ts ++ t :: c ->
  Forall (fun smp => anyTarget smp = true) busy ->
  anyTarget free = false ->
  Forall quiet qs ->
  List.length ts = List.length qs ->
  Forall (waiting raw t0) ts ->
  waiting raw t0 t ->
  anyTarget sw = false ->
  joySwitch sw = true ->
  exists s',
    loop s = Some (tt, s') /\
    vars s' = with_lastMenuOption (-1) (with_gameState 0 (vars s)) /\
    gameState (vars s') = 0 /\
    totalGameScore (vars s') = totalGameScore (vars s) /\
    currentRound (vars s') = currentRound (vars s) /\
    highScore (vars s') = highScore (vars s).
Proof.
  intros Hgs Hp Hr Hc Hbusy Hfree Hqs Hlen Hts Ht Hsw Hjs.
  rewrite (loop_enGarde s Hgs).
  destruct s as [g [ck ps rg lg]]. cbn [vars env pins rng clock] in *. subst.
  destruct (runEnGarde_cancel g busy free qs sw p raw r t0 ts t c lg
              Hbusy Hfree Hqs Hsw Hjs Hlen Hts Ht) as (s' & E & Hv & _).
  exists s'. split; [exact E|]. split; [exact Hv|].
  rewrite Hv. repeat split.
Qed.

Lemma cancel_returns_to_menu_witness :
  exists s',
    loop (mkSt enGarde (mkWorld [0; 100; 200] [idle; idle; pressSwitch]
                          [0] [])) = Some (tt, s') /\
    gameState (vars s') = 0.
Proof.
  destruct (cancel_returns_to_menu
              (mkSt enGarde (mkWorld [0; 100; 200] [idle; idle; pressSwitch]
                               [0] []))
              [] idle [idle] pressSwitch [] 0 [] 0 [100] 200 [])
    as (s' & E & _ & Hgs & _); [on_example .. |].
  exists s'. split; [exact E | exact Hgs].
Defined.

(** X3: the length of the delay.  The delay drawn from the generator's
    value [raw] is [800 + raw mod 2200] ms, between 800 and 2999.  A round
    of the delay loop that reads the clock [e] ms after the delay started,
    with nothing pressed, goes round again when [e] is less than the delay
    and leaves the loop, without polling the inputs, when it is not; this
    also holds when [millis()] has rolled over since the delay started. *)
Theorem delay_lasts_as_drawn (g : game) (raw t0 e : Z) (c : list Z)
    (smp : inputs) (p : list inputs) (rg : list Z) (lg : list event) :
  0 <= e <= ULONG_MAX ->
  quiet smp ->
  800 <= 800 + raw mod 2200 <= 2999 /\
  delayPoll (wrap_int (random_range 800 3000 raw)) (wrap_ulong t0)
    (mkSt g (mkWorld (t0 + e :: c) (smp :: p) rg lg)) =
  if e <? 800 + raw mod 2200
  then Some (None,
             mkSt g (mkWorld c p rg
                       (EvReadSwitch :: readsUpTo 2 ++ EvMillis :: lg)))
  else Some (Some false, mkSt g (mkWorld c (smp :: p) rg (EvMillis :: lg))).
Proof.
  intros He Hq. split; [apply randomDelay_value|].
  pose proof (waiting_iff raw t0 e He) as Hw. unfold waiting in Hw.
  destruct (Z.ltb_spec e (800 + raw mod 2200)) as [Hlt|Hge].
  - apply delayPoll_quiet; [apply Hw; exact Hlt | exact Hq].
  - apply delayPoll_over. rewrite Hw. lia.
Qed.

Lemma delay_lasts_as_drawn_witness :
  delayPoll (wrap_int (random_range 800 3000 5)) (wrap_ulong 4294967000)
    (mkSt enGarde (mkWorld [4294967000 + 900] [idle] [] [])) =
  Some (Some false, mkSt enGarde (mkWorld [] [idle] [] [EvMillis])).
Proof.
  destruct (delay_lasts_as_drawn enGarde 5 4294967000 900 [] idle [] [] [])
    as [_ E]; [vm_compute; intuition discriminate | split; reflexivity |].
  exact E.
Defined.

(** X4: a round, from the preparation phase to its result.  When the delay
    runs out, the target drawn is lit at the clock reading [t1]; if then the
    next scan of the buttons, [e] ms later, sees the button of this target
    pressed and no other, the two passes of [loop()] leave the sketch in the
    result state with [reactionTime = e] (also when [millis()] rolled over
    in between), the round score [1000 - e] up to 1000 ms and 0 above, and
    that score added to the total. *)
Theorem round_from_delay_to_result (g : game) (busy : list inputs)
    (free : inputs) (qs : list inputs) (smp : inputs) (p : list inputs)
    (raw raw2 : Z) (r : list Z) (t0 : Z) (ts : list Z) (t t1 e : Z)
    (c : list Z) (lg : list event) :
  gameState g = 1 ->
  Forall (fun x => anyTarget x = true) busy ->
  anyTarget free = false ->
  Forall quiet qs ->
  List.length ts = List.length qs ->
  Forall (waiting raw t0) ts ->
  ~ waiting raw t0 t ->
  0 <= e <= ULONG_MAX ->
  btn smp (wrap_int (random_range 0 3 raw2)) = true ->
  (forall j, j <> wrap_int (random_range 0 3 raw2) -> btn smp j = false) ->
  exists s',
    run 2 (mkSt g (mkWorld (t0 :: ts ++ t :: t1 :: t1 + e :: c)
                     (busy ++ free :: qs ++ smp :: p)
                     (raw :: raw2 :: r) lg)) = Some (tt, s') /\
    gameState (vars s') = 3 /\
    currentTarget (vars s') = wrap_int (random_range 0 3 raw2) /\
    startTime (vars s') = wrap_ulong t1 /\
    reactionTime (vars s') = e /\
    roundScore (vars s') = (if e <=? 1000 then 1000 - e else 0) /\
    totalGameScore (vars s') =
      wrap_long (totalGameScore g + roundScore (vars s')).
Proof.
  intros Hgs Hbusy Hfree Hqs Hlen Hts Ht He Hbtn Hother.
  cbn [run]. unfold bind at 1.
  rewrite loop_enGarde by exact Hgs.
  destruct (runEnGarde_go g busy free qs (smp :: p) raw raw2 r t0 ts t t1
              (t1 + e :: c) lg Hbusy Hfree Hqs Hlen Hts Ht) as [l ->].
  set (ct := wrap_int (random_range 0 3 raw2)) in *.
  unfold bind at 1.
  match goal with
  | |- context [loop (mkSt ?g1 ?w1)] =>
      replace (loop (mkSt g1 w1)) with (checkReflexes (mkSt g1 w1))
        by (unfold loop, bind, get; reflexivity)
  end.
  match goal with
  | |- context [checkReflexes (mkSt ?g1 (mkWorld _ _ ?rg1 ?lg1))] =>
      destruct (checkReflexes_single g1 (t1 + e) c smp p rg1 lg1)
        as (s' & E & Hv & _); [exact Hbtn | exact Hother |]
  end.
  rewrite E. exists s'. split; [reflexivity|].
  rewrite Hv. fields.
  rewrite elapsed_across_rollover by exact He.
  assert (Hrs : (if e >? 1000 then 0 else wrap_int (wrap_ulong (1000 - e))) =
                (if e <=? 1000 then 1000 - e else 0)).
  { rewrite Z.gtb_ltb.
    destruct (Z.ltb_spec 1000 e), (Z.leb_spec e 1000); try lia.
    rewrite wrap_ulong_small by (unfold ULONG_MAX; lia).
    apply wrap_int_small. lia. }
  rewrite Hrs. repeat split.
Qed.

Lemma round_from_delay_to_result_witness :
  exists s',
    run 2 (mkSt enGarde (mkWorld [0; 100; 800; 801; 801 + 150]
                           [idle; idle; pressLeft] [0; 0] [])) =
      Some (tt, s') /\
    reactionTime (vars s') = 150 /\ roundScore (vars s') = 850.
Proof.
  destruct (round_from_delay_to_result enGarde [] idle [idle] pressLeft []
              0 0 [] 0 [100] 800 801 150 [] [])
    as (s' & E & _ & _ & _ & Hrt & Hrs & _); [on_example .. | |].
  - intros j Hj. unfold btn; cbn.
    change (wrap_int (random_range 0 3 0)) with 0 in Hj.
    destruct (Z.eqb_spec j 0); [contradiction|].
    destruct (j =? 1), (j =? 2); reflexivity.
  - exists s'. split; [exact E|]. split; [exact Hrt | exact Hrs].
Defined.

(** ** The menu *)

(** X5: navigation is throttled.  A pass of [handleMenu] that reads the
    clock at most 200 ms after the last accepted navigation ignores the
    joystick, whatever its deflection: [menuOption], [totalRounds] and
    [lastNavTime] are as they were; and when the switch is not pressed
    either, no game variable changes and nothing is output. *)
Theorem navigation_is_throttled (s : st) (smp : inputs) (p : list inputs)
    (t : Z) (c : list Z) :
  pins (env s) = smp :: p ->
  clock (env s) = t :: c ->
  wrap_ulong (wrap_ulong t - lastNavTime (vars s)) <= 200 ->
  exists s',
    handleMenu s = Some (tt, s') /\
    menuOption (vars s') = menuOption (vars s) /\
    totalRounds (vars s') = totalRounds (vars s) /\
    lastNavTime (vars s') = lastNavTime (vars s) /\
    (joySwitch smp = false ->
     vars s' = vars s /\
     log (env s') =
       EvReadSwitch :: EvMillis :: EvReadJoyX :: EvReadJoyY :: log (env s)).
Proof.
  intros Hp Hc Hnav.
  destruct s as [g [ck ps rg lg]]. cbn [vars env pins clock log] in *. subst.
  assert (R : returns handleMenu
                (fun _ s' =>
                   menuOption (vars s') = menuOption g /\
                   totalRounds (vars s') = totalRounds g /\
                   lastNavTime (vars s') = lastNavTime g /\
                   (joySwitch smp = false ->
                    vars s' = g /\
                    log (env s') =
                      EvReadSwitch :: EvMillis :: EvReadJoyX :: EvReadJoyY
                      :: lg))
                (mkSt g (mkWorld (t :: c) (smp :: p) rg lg))).
  { unfold handleMenu. returns_run.
    all: state; fields; repeat split; try discriminate.
    all: destruct g; reflexivity. }
  destruct R as ([] & s' & E & H). exists s'. split; [exact E | exact H].
Qed.

Lemma navigation_is_throttled_witness :
  exists s',
    handleMenu (mkSt power_on (mkWorld [100] [joyDownLeft] [] [])) =
      Some (tt, s') /\
    vars s' = power_on.
Proof.
  destruct (navigation_is_throttled
              (mkSt power_on (mkWorld [100] [joyDownLeft] [] []))
              joyDownLeft [] 100 [] eq_refl eq_refl)
    as (s' & E & _ & _ & _ & H); [vm_compute; discriminate|].
  exists s'. split; [exact E|]. apply H. reflexivity.
Defined.

(** X6: vertical navigation.  A pass of [handleMenu] more than 200 ms
    after the last accepted navigation, with [menuOption] within 0..2,
    moves the selection up for the joystick pushed up ([joyY < 100]) and
    down for the joystick pushed down ([joyY > 900]), one row at a time and
    not past the first or the last row; [totalRounds] can change in the
    pass only if the selection ends on the rounds row. *)
Theorem vertical_navigation_clamped (s : st) (smp : inputs)
    (p : list inputs) (t t1 t2 : Z) (c : list Z) :
  pins (env s) = smp :: p ->
  clock (env s) = t :: t1 :: t2 :: c ->
  200 < wrap_ulong (wrap_ulong t - lastNavTime (vars s)) ->
  0 <= menuOption (vars s) <= 2 ->
  exists s',
    handleMenu s = Some (tt, s') /\
    menuOption (vars s') =
      (if joyY smp <? 100 then Z.max 0 (menuOption (vars s) - 1)
       else if joyY smp >? 900 then Z.min 2 (menuOption (vars s) + 1)
       else menuOption (vars s)) /\
    (menuOption (vars s') <> 1 ->
     totalRounds (vars s') = totalRounds (vars s)).
Proof.
  intros Hp Hc Hnav Hmo.
  destruct s as [g [ck ps rg lg]]. cbn [vars env pins clock log] in *. subst.
  assert (R : returns handleMenu
                (fun _ s' =>
                   menuOption (vars s') =
                     (if joyY smp <? 100 then Z.max 0 (menuOption g - 1)
                      else if joyY smp >? 900 then Z.min 2 (menuOption g + 1)
                      else menuOption g) /\
                   (menuOption (vars s') <> 1 ->
                    totalRounds (vars s') = totalRounds g))
                (mkSt g (mkWorld (t :: t1 :: t2 :: c) (smp :: p) rg lg))).
  { unfold handleMenu. returns_run. all: leaf. }
  destruct R as ([] & s' & E & H). exists s'. split; [exact E | exact H].
Qed.

Lemma vertical_navigation_clamped_witness :
  exists s',
    handleMenu (mkSt power_on
                  (mkWorld [1000; 1001; 1002] [joyDownLeft] [] [])) =
      Some (tt, s') /\
    menuOption (vars s') = 1.
Proof.
  destruct (vertical_navigation_clamped
              (mkSt power_on (mkWorld [1000; 1001; 1002] [joyDownLeft] [] []))
              joyDownLeft [] 1000 1001 1002 [] eq_refl eq_refl)
    as (s' & E & H & _); [vm_compute; reflexivity | cbn; lia |].
  exists s'. split; [exact E | exact H].
Defined.

(** X7: the joystick switch in the menu.  With the joystick at rest, a
    pass of [handleMenu] that sees the switch pressed starts a game on the
    first two rows: [currentRound = 1], [totalGameScore = 0], the
    preparation state, and every other variable, [highScore] and
    [totalRounds] among them, as it was; on any other row it shows the
    record and goes to the high-score state, changing nothing else. *)
Theorem select_starts_game_or_shows_record (s : st) (smp : inputs)
    (p : list inputs) (t : Z) (c : list Z) :
  pins (env s) = smp :: p ->
  clock (env s) = t :: c ->
  100 <= joyX smp <= 900 ->
  100 <= joyY smp <= 900 ->
  joySwitch smp = true ->
  exists s',
    handleMenu s = Some (tt, s') /\
    if (menuOption (vars s) =? 0) || (menuOption (vars s) =? 1)
    then vars s' =
           with_gameState 1
             (with_totalGameScore 0 (with_currentRound 1 (vars s))) /\
         log (env s') =
           EvDelay 500 :: combatScreen
           ++ EvState 1 :: EvTone 2000 100 :: EvDelay 100 :: EvTone 1800 50
           :: EvReadSwitch :: EvMillis :: EvReadJoyX :: EvReadJoyY
           :: log (env s)
    else vars s' = with_gameState 5 (vars s) /\
         log (env s') =
           EvDelay 500 :: hallOfFame (highScore (vars s))
           ++ EvState 5 :: EvTone 2000 100 :: EvDelay 100 :: EvTone 1800 50
           :: EvReadSwitch :: EvMillis :: EvReadJoyX :: EvReadJoyY
           :: log (env s).
Proof.
  intros Hp Hc Hx Hy Hsw.
  destruct s as [g [ck ps rg lg]]. cbn [vars env pins clock log] in *. subst.
  assert (R : returns handleMenu
                (fun _ s' =>
                   if (menuOption g =? 0) || (menuOption g =? 1)
                   then vars s' =
                          with_gameState 1
                            (with_totalGameScore 0 (with_currentRound 1 g)) /\
                        log (env s') =
                          EvDelay 500 :: combatScreen
                          ++ EvState 1 :: EvTone 2000 100 :: EvDelay 100
                          :: EvTone 1800 50 :: EvReadSwitch :: EvMillis
                          :: EvReadJoyX :: EvReadJoyY :: lg
                   else vars s' = with_gameState 5 g /\
                        log (env s') =
                          EvDelay 500 :: hallOfFame (highScore g)
                          ++ EvState 5 :: EvTone 2000 100 :: EvDelay 100
                          :: EvTone 1800 50 :: EvReadSwitch :: EvMillis
                          :: EvReadJoyX :: EvReadJoyY :: lg)
                (mkSt g (mkWorld (t :: c) (smp :: p) rg lg))).
  { unfold handleMenu. returns_run.
    all: state; fields;
      repeat match goal with
             | H : (menuOption _ =? _) = _ |- _ => rewrite H
             end;
      cbn [orb]; split; reflexivity. }
  destruct R as ([] & s' & E & H). exists s'. split; [exact E | exact H].
Qed.

Lemma select_starts_game_or_shows_record_witness :
  exists s',
    handleMenu (mkSt power_on (mkWorld [1000] [pressSwitch] [] [])) =
      Some (tt, s') /\
    gameState (vars s') = 1.
Proof.
  destruct (select_starts_game_or_shows_record
              (mkSt power_on (mkWorld [1000] [pressSwitch] [] []))
              pressSwitch [] 1000 [] eq_refl eq_refl)
    as (s' & E & H); [cbn; lia | cbn; lia | reflexivity |].
  exists s'. split; [exact E|].
  cbn [vars menuOption power_on Z.eqb orb] in H.
  destruct H as [Hv _]. rewrite Hv. reflexivity.
Defined.

(** X8: the menu screen.  With [menuOption] within 0..2, [drawMenu] clears
    the display and draws two of the three rows so that the selected one is
    among them: the arrow is put on row 0 or 1, the row on which the icon
    of the selected option was drawn; the rounds row, with the current
    [totalRounds], is on the screen for every selection.  No game variable
    changes and no input is consumed. *)
Theorem drawMenu_keeps_selection_visible (g : game) (w : world) :
  0 <= menuOption g <= 2 ->
  exists row above below,
    (row = 0 \/ row = 1) /\
    drawMenu (mkSt g w) =
      Some (tt,
            mkSt g (with_log
                      (EvLcdWrite 2 :: EvLcdSetCursor 0 row
                       :: above
                       ++ EvLcdWrite (menuIcon (menuOption g))
                       :: EvLcdSetCursor 1 row
                       :: below ++ EvLcdClear :: log w) w)) /\
    In (EvLcdPrintNum (totalRounds g)) (above ++ below).
Proof.
  intros H.
  assert (E : menuOption g = 0 \/ menuOption g = 1 \/ menuOption g = 2)
    by lia.
  destruct g as [rounds v2 option v4 v5 v6 v7 v8 v9 v10 v11 v12].
  destruct w as [ck ps rg lg].
  cbn [menuOption totalRounds log] in *.
  destruct E as [-> | [-> | ->]];
    match goal with
    | |- context [drawMenu ?x] =>
        let d := fresh "d" in
        let D := fresh "D" in
        remember (drawMenu x) as d eqn:D; vm_compute in D; subst d
    end.
  - exists 0. eexists [_; _; _; _; _; _].
    exists []. split; [auto|]. split; [reflexivity|].
    cbn. auto 10.
  - exists 1. eexists [_; _; _].
    eexists [_; _; _]. split; [auto|]. split; [reflexivity|].
    cbn. auto 10.
  - exists 1. eexists [_].
    eexists [_; _; _; _; _]. split; [auto|].
    split; [reflexivity|].
    cbn. auto 10.
Qed.

Lemma drawMenu_keeps_selection_visible_witness :
  exists row above below,
    (row = 0 \/ row = 1) /\
    drawMenu (mkSt power_on (mkWorld [] [] [] [])) =
      Some (tt,
            mkSt power_on
              (with_log
                 (EvLcdWrite 2 :: EvLcdSetCursor 0 row
                  :: above
                  ++ EvLcdWrite (menuIcon (menuOption power_on))
                  :: EvLcdSetCursor 1 row
                  :: below ++ EvLcdClear :: log (mkWorld [] [] [] []))
                 (mkWorld [] [] [] []))) /\
    In (EvLcdPrintNum (totalRounds power_on)) (above ++ below).
Proof.
  apply (drawMenu_keeps_selection_visible power_on (mkWorld [] [] [] [])).
  cbn. lia.
Defined.

(** X9: waiting for the press.  A pass of [checkReflexes] that sees no
    target button pressed reads the three buttons and nothing else: no game
    variable changes, the clock is not read, nothing is output; the action
    state has no time-out. *)
Theorem checkReflexes_waits (s : st) (smp : inputs) (p : list inputs) :
  pins (env s) = smp :: p ->
  anyTarget smp = false ->
  checkReflexes s =
  Some (tt,
        mkSt (vars s)
          (with_log (readsUpTo 2 ++ log (env s)) (with_pins p (env s)))).
Proof.
  intros Hp Hq.
  destruct s as [g [ck ps rg lg]]. cbn [vars env pins clock log] in *. subst.
  destruct smp as [? ? ? [] [] []]; try discriminate Hq. reflexivity.
Qed.

Lemma checkReflexes_waits_witness :
  checkReflexes (mkSt leftLit (mkWorld [] [idle] [] [])) =
  Some (tt, mkSt leftLit (mkWorld [] [] [] (readsUpTo 2))).
Proof.
  apply (checkReflexes_waits (mkSt leftLit (mkWorld [] [idle] [] []))
           idle []); reflexivity.
Defined.

(** X10: leaving the game-over and the high-score screens.  In the state 4
    or 5 a pass of [loop()] that sees the joystick switch or the center
    button pressed goes to the menu with the first row selected
    ([menuOption = 0], [lastMenuOption = -1]) and changes nothing else;
    otherwise it changes no game variable, whatever the left and the right
    button are. *)
Theorem confirm_returns_to_menu (s : st) (smp : inputs) (p : list inputs) :
  gameState (vars s) = 4 \/ gameState (vars s) = 5 ->
  pins (env s) = smp :: p ->
  exists s',
    loop s = Some (tt, s') /\
    vars s' =
      (if joySwitch smp || btnCenter smp
       then with_lastMenuOption (-1)
              (with_menuOption 0 (with_gameState 0 (vars s)))
       else vars s).
Proof.
  intros Hgs Hp.
  destruct s as [g [ck ps rg lg]]. cbn [vars env pins clock log] in *. subst.
  apply loop_over. exact Hgs.
Qed.

Lemma confirm_returns_to_menu_witness :
  exists s',
    loop (mkSt (with_gameState 4 power_on)
            (mkWorld [] [pressCenter] [] [])) = Some (tt, s') /\
    gameState (vars s') = 0.
Proof.
  destruct (confirm_returns_to_menu
              (mkSt (with_gameState 4 power_on)
                 (mkWorld [] [pressCenter] [] []))
              pressCenter [])
    as (s' & E & H); [left; reflexivity | reflexivity |].
  exists s'. split; [exact E|]. rewrite H. reflexivity.
Defined.

(** ** What every pass keeps *)

(** X11: the state machine.  A pass of [loop()] moves [gameState] along an
    arrow of the game's graph only: from the menu (0) to the preparation
    phase (1) or the high-score screen (5); from the preparation phase to
    the action state (2) or, on a cancel, to the menu; from the action
    state to the result (3); from the result to the next preparation phase
    or to the game-over screen (4); from the game-over and the high-score
    screens to the menu; or it stays where it is, which the result state
    never does.  A value outside 0..5 is never left. *)
Theorem loop_follows_state_machine (s s' : st) :
  loop s = Some (tt, s') ->
  allowed (gameState (vars s)) (gameState (vars s')).
Proof.
  intros E. exact (proj1 (wp_result _ _ _ _ _ (frame_loop s) E)).
Qed.

Lemma loop_follows_state_machine_witness :
  exists s',
    loop (mkSt enGarde goWorld) = Some (tt, s') /\
    allowed (gameState enGarde) (gameState (vars s')).
Proof.
  assert (E : exists s', loop (mkSt enGarde goWorld) = Some (tt, s'))
    by (eexists; vm_compute; reflexivity).
  destruct E as [s' E]. exists s'. split; [exact E|].
  exact (loop_follows_state_machine _ _ E).
Defined.

(** X12: each variable is written in its own states.  Over a pass of
    [loop()]: [totalRounds] changes in the menu only; the selection and the
    navigation clock are untouched during a round (states 1 to 3); the
    target and [startTime] change in the preparation phase only;
    [roundScore] and [reactionTime] in the action state only; [highScore]
    in the result state only; the total is final from the result state on
    (states 3 to 5); and the round counter changes in the menu and the
    result state only. *)
Theorem variables_written_in_their_states (s s' : st) :
  loop s = Some (tt, s') ->
  (gameState (vars s) <> 0 ->
   totalRounds (vars s') = totalRounds (vars s)) /\
  (1 <= gameState (vars s) <= 3 ->
   menuOption (vars s') = menuOption (vars s) /\
   lastNavTime (vars s') = lastNavTime (vars s)) /\
  (gameState (vars s) <> 1 ->
   currentTarget (vars s') = currentTarget (vars s) /\
   startTime (vars s') = startTime (vars s)) /\
  (gameState (vars s) <> 2 ->
   roundScore (vars s') = roundScore (vars s) /\
   reactionTime (vars s') = reactionTime (vars s)) /\
  (gameState (vars s) <> 3 -> highScore (vars s') = highScore (vars s)) /\
  (3 <= gameState (vars s) <= 5 ->
   totalGameScore (vars s') = totalGameScore (vars s)) /\
  (gameState (vars s) <> 0 -> gameState (vars s) <> 3 ->
   currentRound (vars s') = currentRound (vars s)).
Proof.
  intros E.
  pose proof (wp_result _ _ _ _ _ (frame_loop s) E) as H. cbv beta in H.
  unfold step_ok in H. tauto.
Qed.

Lemma variables_written_in_their_states_witness :
  exists s',
    loop (mkSt enGarde goWorld) = Some (tt, s') /\
    totalRounds (vars s') = totalRounds enGarde /\
    highScore (vars s') = highScore enGarde.
Proof.
  assert (E : exists s', loop (mkSt enGarde goWorld) = Some (tt, s'))
    by (eexists; vm_compute; reflexivity).
  destruct E as [s' E]. exists s'. split; [exact E|].
  destruct (variables_written_in_their_states _ _ E)
    as (Htr & _ & _ & _ & Hhs & _).
  split; [apply Htr | apply Hhs]; vm_compute; discriminate.
Defined.

(** X13: the array indices stay in range.  Once [menuOption] and
    [currentTarget] are within 0..2, as they are at power-on, they are
    within 0..2 after any number of passes of [loop()], on any inputs: the
    accesses [menuItems[menuOption]] and [ledPins[currentTarget]] are
    within the arrays. *)
Theorem indices_stay_in_range (n : nat) (s s' : st) :
  0 <= menuOption (vars s) <= 2 ->
  0 <= currentTarget (vars s) <= 2 ->
  run n s = Some (tt, s') ->
  0 <= menuOption (vars s') <= 2 /\ 0 <= currentTarget (vars s') <= 2.
Proof.
  intros Hmo Hct E.
  apply (run_keeps
           (fun g => 0 <= menuOption g <= 2 /\ 0 <= currentTarget g <= 2))
    with (n := n) (s := s); [|split; assumption|exact E].
  unfold step_ok. intros g g' H [H1 H2]. tauto.
Qed.

Lemma indices_stay_in_range_witness :
  exists s',
    run 14 (mkSt power_on staleRound) = Some (tt, s') /\
    0 <= menuOption (vars s') <= 2 /\ 0 <= currentTarget (vars s') <= 2.
Proof.
  assert (E : exists s', run 14 (mkSt power_on staleRound) = Some (tt, s'))
    by (eexists; vm_compute; reflexivity).
  destruct E as [s' E]. exists s'. split; [exact E|].
  apply (indices_stay_in_range 14 (mkSt power_on staleRound) s');
    [cbn; lia | cbn; lia | exact E].
Defined.

(** X14: the score of a round is bounded.  Once [roundScore] is within
    -200..1000, as it is at power-on, it stays there over any number of
    passes of [loop()]: a hit gives at most 1000 and never less than 0, a
    miss gives -200. *)
Theorem roundScore_stays_in_range (n : nat) (s s' : st) :
  -200 <= roundScore (vars s) <= 1000 ->
  run n s = Some (tt, s') ->
  -200 <= roundScore (vars s') <= 1000.
Proof.
  intros Hrs E.
  apply (run_keeps (fun g => -200 <= roundScore g <= 1000))
    with (n := n) (s := s); [|assumption|exact E].
  unfold step_ok. intros g g' H H1. tauto.
Qed.

Lemma roundScore_stays_in_range_witness :
  exists s',
    run 14 (mkSt power_on staleRound) = Some (tt, s') /\
    -200 <= roundScore (vars s') <= 1000.
Proof.
  assert (E : exists s', run 14 (mkSt power_on staleRound) = Some (tt, s'))
    by (eexists; vm_compute; reflexivity).
  destruct E as [s' E]. exists s'. split; [exact E|].
  apply (roundScore_stays_in_range 14 (mkSt power_on staleRound) s');
    [cbn; lia | exact E].
Defined.

(** X15: the end of a round.  In the result state, with the round counter
    at least 1 and the round count at most 99, the pass of [loop()] reads
    no input and either starts the next round, the counter one up, when
    rounds are left ([currentRound < totalRounds]), or ends the game: the
    state is 4 and [highScore] is the larger of the old record and the
    total of the game; every other variable is as it was. *)
Theorem result_advances_or_ends (g : game) (w : world) :
  gameState g = 3 ->
  1 <= currentRound g ->
  totalRounds g <= 99 ->
  exists s',
    loop (mkSt g w) = Some (tt, s') /\
    vars s' =
      (if currentRound g <? totalRounds g
       then with_gameState 1 (with_currentRound (currentRound g + 1) g)
       else with_highScore (Z.max (highScore g) (totalGameScore g))
              (with_gameState 4 g)) /\
    clock (env s') = clock w /\ pins (env s') = pins w /\
    rng (env s') = rng w.
Proof.
  intros H3 Hcr Htr. rewrite (loop_result g w H3).
  destruct (Z.ltb_spec (currentRound g) (totalRounds g)) as [Hlt | Hge].
  - eexists. split; [reflexivity|]. cbn [vars env].
    rewrite wrap_int_small by lia. repeat split.
  - rewrite gameOver_eq.
    destruct (totalGameScore g >? highScore g) eqn:Hrec;
      (eexists; split; [reflexivity|]); cbn [vars env]; bool_facts.
    + rewrite Z.max_r by lia. repeat split.
    + rewrite Z.max_l by lia. destruct g. repeat split.
Qed.

Lemma result_advances_or_ends_witness :
  exists s',
    loop (mkSt (with_totalGameScore 850 (with_totalRounds 1
                  (with_gameState 3 power_on)))
            (mkWorld [] [] [] [])) = Some (tt, s') /\
    gameState (vars s') = 4 /\ highScore (vars s') = 850.
Proof.
  destruct (result_advances_or_ends
              (with_totalGameScore 850 (with_totalRounds 1
                 (with_gameState 3 power_on)))
              (mkWorld [] [] [] []))
    as (s' & E & Hv & _); [reflexivity | cbn; lia | cbn; lia |].
  exists s'. split; [exact E|]. rewrite Hv. split; reflexivity.
Defined.

(** ** The LEDs and the state *)

(** X16: the LEDs show the target and nothing else.  If the LEDs agree
    with the state before the first of any number of passes of [loop()]
    (as after the intro: all off, the state not 2), then after the last one
    a target LED is lit exactly when the sketch is in the action state and
    it is the LED of [currentTarget]: one LED is lit while a press is
    awaited, and none in the menu, during the preparation phase and its
    false starts, after a press, a cancel or the end of the game. *)
Theorem leds_show_the_target_only (n : nat) (s s' : st) (i : Z) :
  ledsMatch s ->
  run n s = Some (tt, s') ->
  0 <= i <= 2 ->
  (led i (log (env s')) = true <->
   gameState (vars s') = 2 /\ currentTarget (vars s') = i).
Proof.
  intros Hs E Hi.
  destruct (leds_run n s s' Hs E) as (H0 & H1 & H2).
  assert (Hled : led i (log (env s')) =
                 (gameState (vars s') =? 2) && (i =? currentTarget (vars s')))
    by (assert (Ei : i = 0 \/ i = 1 \/ i = 2) by lia;
        destruct Ei as [-> | [-> | ->]]; assumption).
  rewrite Hled, andb_true_iff, !Z.eqb_eq. intuition congruence.
Qed.

Lemma leds_show_the_target_only_witness :
  exists s',
    run 2 (mkSt power_on oneRound) = Some (tt, s') /\
    (led 0 (log (env s')) = true <->
     gameState (vars s') = 2 /\ currentTarget (vars s') = 0).
Proof.
  assert (E : exists s', run 2 (mkSt power_on oneRound) = Some (tt, s'))
    by (eexists; vm_compute; reflexivity).
  destruct E as [s' E]. exists s'. split; [exact E|].
  refine (leds_show_the_target_only 2 (mkSt power_on oneRound) s' 0 _ E _);
    [vm_compute; auto | lia].
Defined.

(** X17: the intro.  [introAnimation] always returns; it reads no input
    and changes no game variable; it lights the three LEDs twice and leaves
    them off, whatever they were before, so that from any state other than
    the action state the LEDs agree with the state when it is done. *)
Theorem introAnimation_ends_dark (s : st) :
  exists s',
    introAnimation s = Some (tt, s') /\
    vars s' = vars s /\
    clock (env s') = clock (env s) /\
    pins (env s') = pins (env s) /\
    rng (env s') = rng (env s) /\
    List.length (filter (fun e => match e with
                                  | EvLed _ on => on
                                  | _ => false
                                  end) (log (env s'))) =
      (6 + List.length (filter (fun e => match e with
                                         | EvLed _ on => on
                                         | _ => false
                                         end) (log (env s))))%nat /\
    (forall i, 0 <= i <= 2 -> led i (log (env s')) = false) /\
    (gameState (vars s) <> 2 -> ledsMatch s').
Proof.
  destruct s as [g [ck ps rg lg]].
  remember (introAnimation (mkSt g (mkWorld ck ps rg lg))) as d eqn:D.
  vm_compute in D. subst d.
  eexists. split; [reflexivity|]. cbn [vars env clock pins rng log with_log].
  split; [reflexivity|]. split; [reflexivity|]. split; [reflexivity|].
  split; [reflexivity|]. split; [reflexivity|]. split; [|unfold ledsMatch;
    cbn [vars env log]; intros Hgs; split; [|split]].
  - intros i Hi. assert (Ei : i = 0 \/ i = 1 \/ i = 2) by lia.
    destruct Ei as [-> | [-> | ->]]; reflexivity.
  - cbn [led Z.eqb Pos.eqb]. destruct (Z.eqb_spec (gameState g) 2);
      [contradiction | reflexivity].
  - cbn [led Z.eqb Pos.eqb]. destruct (Z.eqb_spec (gameState g) 2);
      [contradiction | reflexivity].
  - cbn [led Z.eqb Pos.eqb]. destruct (Z.eqb_spec (gameState g) 2);
      [contradiction | reflexivity].
Qed.
